(** * app.py: the churn dashboard's aggregation and filtering layer

    A shallow embedding of [src/app.py].  The script loads one CSV file into a
    pandas DataFrame and derives from it the headline metrics (tab 1), the
    per-segment summary (tab 2), the risk-filtered table (tab 3) and the
    priority table (tab 4).

    Modelling decisions, all visible in the definitions below:
    - what is embedded are the pandas expressions of the script, each taken
      on its own; the matplotlib calls between them ([ax.pie], [ax.hist],
      [ax.bar]) and the Streamlit rendering are not embedded, so nothing is
      stated here about a whole run of the page;
    - the numeric columns are read as float64: a cell is a number or empty.
      A number is an exact rational ([float]) and sums and quotients are
      exact.  Where the rounding of float64 decides which rows a view
      returns, in the midpoint of the two middle cells of the median of
      tab 4, what float64 returns is a parameter ([mid], module [Rounded]);
      [Tab4] is the instance with the exact midpoint;
    - a cell that the CSV leaves empty is NaN (numeric columns) or [None]
      (text columns), as [pd.read_csv] produces it;
    - a DataFrame is its header ([columns]) and its rows in index order;
      [data["c"]] raises [KeyError] when [c] is not in the header;
    - Python exceptions are the [Raise] branch of [result];
    - [sort_values] is called without [kind=], so pandas hands the keys to
      numpy's [argsort(kind="quicksort")], whose order among equal keys is not
      part of its contract: the embedding takes [argsort] as a parameter.
      [aquicksort] is numpy's generic implementation of it; builds of numpy
      that dispatch float64 keys to a vectorised kernel order equal keys in
      another way, equally without a guarantee;
    - [groupby] sorts the group keys as the type of the column orders them
      (numbers by value, text by character): the order is a parameter
      ([key_sort]). *)

From Stdlib Require Import List Bool Arith Lia ZArith QArith Qround Qabs String Ascii.
From Stdlib Require Import Permutation Sorted DecimalString Lqa ListDec.
Import ListNotations.
Open Scope string_scope.
Open Scope list_scope.
Open Scope nat_scope.

(** ** Python-side values *)

(** float64: NaN or a finite value. *)
Inductive float : Type :=
| NaN : float
| Fin (q : Q) : float.

(** Two floats denote the same number.  NaN is related to NaN here: the
    relation compares results of the model, it is not Python's [==]. *)
Definition feq (x y : float) : Prop :=
  match x, y with
  | NaN, NaN => True
  | Fin a, Fin b => (a == b)%Q
  | _, _ => False
  end.

Definition isna (x : float) : bool :=
  match x with NaN => true | Fin _ => false end.

(** [x * y] on floats: NaN is absorbing. *)
Definition fmul (x y : float) : float :=
  match x, y with
  | Fin a, Fin b => Fin (a * b)
  | _, _ => NaN
  end.

(** [x > y] on floats: any comparison with NaN is False. *)
Definition fgt (x y : float) : bool :=
  match x, y with
  | Fin a, Fin b => negb (Qle_bool a b)
  | _, _ => false
  end.

(** Exceptions the script can raise. *)
Inductive exn : Type :=
| FileNotFoundError
| ParserError
| KeyError (c : string)
| IndexError.

Inductive result (A : Type) : Type :=
| Ok (a : A)
| Raise (e : exn).
Arguments Ok {A} a.
Arguments Raise {A} e.

Definition bind {A B} (m : result A) (k : A -> result B) : result B :=
  match m with
  | Ok a => k a
  | Raise e => Raise e
  end.

Notation "x <- m ;; k" := (bind m (fun x => k))
  (at level 61, m at next level, right associativity).

Definition raises {A} (m : result A) : Prop :=
  match m with Ok _ => False | Raise _ => True end.

(** ** The table *)

(** One line of the CSV, typed by the CustomerRecord schema. *)
Record Row : Type := mkRow {
  customer_id : option string;
  segment : option string;
  clv_proxy : float;
  churn_probability : float;
  risk_level : option string;
  actual_churn : float
}.

(** A DataFrame: the header and the rows in index order.  A row keeps a cell
    for every schema column; the cells of a column that is not in [columns]
    are never read, since every read goes through [getitem]. *)
Record DataFrame : Type := mkFrame {
  columns : list string;
  rows : list Row
}.

Definition has_column (c : string) (df : DataFrame) : bool :=
  existsb (String.eqb c) (columns df).

(** [df["c"]]: the column as a Series, or KeyError. *)
Definition getitem {A} (c : string) (proj : Row -> A) (df : DataFrame)
  : result (list A) :=
  if has_column c df then Ok (map proj (rows df)) else Raise (KeyError c).

(** [df[[c1, ..., cn]]]: the frame restricted to the listed columns; KeyError
    on the first one that is missing. *)
Fixpoint check_columns (cs : list string) (df : DataFrame) : result unit :=
  match cs with
  | [] => Ok tt
  | c :: cs' => if has_column c df then check_columns cs' df else Raise (KeyError c)
  end.

Definition getitems (cs : list string) (df : DataFrame) : result DataFrame :=
  _ <- check_columns cs df ;;
  Ok {| columns := cs; rows := rows df |}.

(** [df[mask]]: the rows whose mask entry is True, in order.  Every mask of
    the script is computed from the frame it indexes, so mask and rows have
    the same length; the length mismatch that pandas rejects cannot arise and
    the model stops at the shorter of the two. *)
Fixpoint select {A} (mask : list bool) (l : list A) : list A :=
  match mask, l with
  | b :: mask', x :: l' => if b then x :: select mask' l' else select mask' l'
  | _, _ => []
  end.

Definition getmask (mask : list bool) (df : DataFrame) : DataFrame :=
  {| columns := columns df; rows := select mask (rows df) |}.

(** [series == label] on a text column: a missing cell compares False. *)
Definition eq_label (label : string) (s : list (option string)) : list bool :=
  map (fun c => match c with Some v => String.eqb v label | None => false end) s.

(** [series > x] on a numeric column. *)
Definition gt_scalar (x : float) (s : list float) : list bool :=
  map (fun v => fgt v x) s.

(** [m1 & m2]. *)
Fixpoint mask_and (m1 m2 : list bool) : list bool :=
  match m1, m2 with
  | a :: m1', b :: m2' => (a && b) :: mask_and m1' m2'
  | _, _ => []
  end.

(** ** Reductions *)

(** The non-missing values of a numeric Series. *)
Fixpoint dropna (s : list float) : list Q :=
  match s with
  | [] => []
  | NaN :: s' => dropna s'
  | Fin q :: s' => q :: dropna s'
  end.

(** The non-missing values of a text Series. *)
Fixpoint dropnone (s : list (option string)) : list string :=
  match s with
  | [] => []
  | None :: s' => dropnone s'
  | Some v :: s' => v :: dropnone s'
  end.

Definition Qsum (l : list Q) : Q := fold_right Qplus 0%Q l.

Definition Qlen (n : nat) : Q := inject_Z (Z.of_nat n).

(** [Series.mean()] with the default [skipna=True]: the mean of the values
    that are present, NaN when there is none. *)
Definition mean (s : list float) : float :=
  match dropna s with
  | [] => NaN
  | v => Fin (Qsum v / Qlen (List.length v))
  end.

(** A boolean Series read as numbers (True is 1, False is 0). *)
Definition as_float (m : list bool) : list float :=
  map (fun b : bool => if b then Fin 1 else Fin 0) m.

(** [Series.nunique()]: the number of distinct values that are present. *)
Definition nunique (s : list (option string)) : nat :=
  List.length (nodup string_dec (dropnone s)).

(** Insertion sort: the reference ordering used for the median and for the
    group keys.  A new element goes before the first element it is [leb]
    to. *)
Section Isort.
Context {A : Type} (leb : A -> A -> bool).

Fixpoint insert (x : A) (l : list A) : list A :=
  match l with
  | [] => [x]
  | y :: l' => if leb x y then x :: l else y :: insert x l'
  end.

Definition isort (l : list A) : list A := fold_right insert [] l.
End Isort.

(** [Series.median()] with [skipna=True]: the middle value of the sorted
    present values; the mean of the two middle values when their number is
    even, taken exactly (module [Rounded] has the float64 midpoint as a
    parameter); NaN when there is none. *)
Definition median (s : list float) : float :=
  let v := isort Qle_bool (dropna s) in
  let n := List.length v in
  match n with
  | O => NaN
  | _ =>
      if Nat.even n
      then Fin ((nth (n / 2 - 1) v 0%Q + nth (n / 2) v 0%Q) / 2)%Q
      else Fin (nth (n / 2) v 0%Q)
  end.

(** [Series.value_counts()]: for each distinct value that is present, the
    number of its occurrences.  The Series is indexed by the value; the order
    of its entries (by decreasing count in pandas) is not modelled, the
    entries are read by label only. *)
Definition value_counts (s : list (option string)) : list (string * nat) :=
  let v := dropnone s in
  map (fun k => (k, count_occ string_dec v k)) (nodup string_dec v).

(** The entry of a counts Series under a label, if there is one. *)
Fixpoint lookup (label : string) (vc : list (string * nat)) : option nat :=
  match vc with
  | [] => None
  | (k, n) :: vc' => if String.eqb k label then Some n else lookup label vc'
  end.

(** ** Formatting *)

(** Rounding to the nearest integer, ties to even. *)
Definition round_half_even (q : Q) : Z :=
  let fl := Qfloor q in
  match Qcompare (q - inject_Z fl)%Q (1 # 2)%Q with
  | Lt => fl
  | Gt => (fl + 1)%Z
  | Eq => if Z.even fl then fl else (fl + 1)%Z
  end.

Definition digits (z : Z) : string :=
  NilZero.string_of_uint (N.to_uint (Z.to_N z)).

(** [f"{x:.2f}"]. *)
Definition format_2f (x : float) : string :=
  match x with
  | NaN => "nan"
  | Fin q =>
      let n := round_half_even (Qabs q * 100)%Q in
      let sign := if Qle_bool 0%Q q then "" else "-" in
      String.append sign
        (String.append (digits (n / 100)%Z)
           (String.append "."
              (String.append (digits (n mod 100 / 10)%Z) (digits (n mod 10)%Z))))
  end.

(** ** Sorting a frame *)

(** [a[indexer]] (numpy fancy indexing, [DataFrame.take]): the elements at the
    listed positions; IndexError on a position outside the array. *)
Fixpoint take {A} (indexer : list nat) (l : list A) : result (list A) :=
  match indexer with
  | [] => Ok []
  | i :: indexer' =>
      match nth_error l i with
      | Some x => xs <- take indexer' l ;; Ok (x :: xs)
      | None => Raise IndexError
      end
  end.

(** pandas' [nargsort(items, kind="quicksort", ascending, na_position="last")].
    The present keys are sorted by [argsort]; for a descending sort keys and
    positions are reversed before and the result reversed after; the positions
    of the missing keys come last, in index order. *)
Definition nargsort (argsort : list Q -> list nat)
    (items : list float) (ascending : bool) : result (list nat) :=
  let idx := seq 0 (List.length items) in
  let mask := map isna items in
  let nonnan := dropna items in
  let nonnan_idx := select (map negb mask) idx in
  let nan_idx := select mask idx in
  let nonnan' := if ascending then nonnan else rev nonnan in
  let nonnan_idx' := if ascending then nonnan_idx else rev nonnan_idx in
  indexer <- take (argsort nonnan') nonnan_idx' ;;
  let indexer' := if ascending then indexer else rev indexer in
  Ok (indexer' ++ nan_idx).

(** [df.sort_values(by, ascending=...)] on one numeric column. *)
Definition sort_values (argsort : list Q -> list nat)
    (by_ : string) (proj : Row -> float) (ascending : bool) (df : DataFrame)
  : result DataFrame :=
  k <- getitem by_ proj df ;;
  indexer <- nargsort argsort k ascending ;;
  rs <- take indexer (rows df) ;;
  Ok {| columns := columns df; rows := rs |}.

(** What numpy promises of [argsort(kind="quicksort")]: the result lists every
    position once and reads the keys in non-decreasing order.  Nothing is
    promised about the order of positions that hold equal keys. *)
Definition argsort_contract (argsort : list Q -> list nat) : Prop :=
  forall v,
    Permutation (argsort v) (seq 0 (List.length v)) /\
    StronglySorted Qle (map (fun i => nth i v 0%Q) (argsort v)).

(** An [argsort] that meets the contract: insertion of the positions, a
    position going before the positions of equal keys already placed. *)
Definition argsort_with (leb : Q -> Q -> bool) (v : list Q) : list nat :=
  isort (fun i j => leb (nth i v 0%Q) (nth j v 0%Q)) (seq 0 (List.length v)).

Definition argsort_stable : list Q -> list nat := argsort_with Qle_bool.

(** ** numpy's quicksort on positions *)

(** numpy's generic [argsort(kind="quicksort")] for float64 keys
    (npysort/quicksort.cpp, [aquicksort_]): an introsort on the array [a] of
    positions, the keys [v] being read through it.  A segment [pl..pr] of
    more than 17 positions is partitioned around the median of its first,
    middle and last key; a shorter one is sorted by insertion; a segment taken
    from the stack after the depth budget is used up is heap-sorted.  The
    recursion below stands for the explicit stack of the C code: the two
    parts of a partition are disjoint, so the order in which they are sorted
    does not matter. *)

(** [a[i] = x]. *)
Fixpoint upd (i : nat) (x : nat) (a : list nat) : list nat :=
  match a, i with
  | [], _ => []
  | _ :: a', 0 => x :: a'
  | y :: a', S i' => y :: upd i' x a'
  end.

(** [INTP_SWAP(a[i], a[j])]. *)
Definition intp_swap (a : list nat) (i j : nat) : list nat :=
  upd j (nth i a 0) (upd i (nth j a 0) a).

(** [Tag::less] on keys that are numbers. *)
Definition less (x y : Q) : bool := negb (Qle_bool y x).

(** [v[a[p]]]. *)
Definition key (v : list Q) (a : list nat) (p : nat) : Q := nth (nth p a 0) v 0%Q.

(** [do ++pi; while (less(v[*pi], vp))], entered at the incremented [pi]. *)
Fixpoint scan_up (fuel : nat) (v : list Q) (a : list nat) (vp : Q) (pi : nat) : nat :=
  match fuel with
  | 0 => pi
  | S f => if less (key v a pi) vp then scan_up f v a vp (S pi) else pi
  end.

(** [do --pj; while (less(vp, v[*pj]))], entered at the decremented [pj]. *)
Fixpoint scan_down (fuel : nat) (v : list Q) (a : list nat) (vp : Q) (pj : nat) : nat :=
  match fuel with
  | 0 => pj
  | S f => if less vp (key v a pj) then scan_down f v a vp (pj - 1) else pj
  end.

(** The [for (;;)] loop of the partition: scan from both ends, stop when the
    scans meet, otherwise swap and go on. *)
Fixpoint exchange (fuel : nat) (v : list Q) (a : list nat) (vp : Q) (pi pj : nat)
  : list nat * nat :=
  match fuel with
  | 0 => (a, pi)
  | S f =>
      let pi' := scan_up (List.length a) v a vp (S pi) in
      let pj' := scan_down (List.length a) v a vp (pj - 1) in
      if pj' <=? pi' then (a, pi')
      else exchange f v (intp_swap a pi' pj') vp pi' pj'
  end.

(** One partition of the segment [pl..pr]; returns the array and the final
    place [pi] of the pivot. *)
Definition partition (v : list Q) (a : list nat) (pl pr : nat) : list nat * nat :=
  let pm := pl + (pr - pl) / 2 in
  let a := if less (key v a pm) (key v a pl) then intp_swap a pm pl else a in
  let a := if less (key v a pr) (key v a pm) then intp_swap a pr pm else a in
  let a := if less (key v a pm) (key v a pl) then intp_swap a pm pl else a in
  let vp := key v a pm in
  let a := intp_swap a pm (pr - 1) in
  let '(a, pi) := exchange (List.length a) v a vp pl (pr - 1) in
  (intp_swap a pi (pr - 1), pi).

(** The inner [while] of the insertion sort: move larger keys one place up. *)
Fixpoint shift (fuel : nat) (v : list Q) (a : list nat) (vp : Q) (pl pj : nat)
  : list nat * nat :=
  match fuel with
  | 0 => (a, pj)
  | S f =>
      if (pl <? pj) && less vp (key v a (pj - 1))
      then shift f v (upd pj (nth (pj - 1) a 0) a) vp pl (pj - 1)
      else (a, pj)
  end.

Definition insert_position (v : list Q) (pl : nat) (a : list nat) (pi : nat) : list nat :=
  let vi := nth pi a 0 in
  let '(a', pj) := shift pi v a (nth vi v 0%Q) pl pi in
  upd pj vi a'.

(** The insertion sort of the segment [pl..pr]. *)
Definition insertion (v : list Q) (a : list nat) (pl pr : nat) : list nat :=
  fold_left (insert_position v pl) (seq (S pl) (pr - pl)) a.

(** [aheapsort_] on the [n] positions from [o] on, numbered from 1 as in the
    C code: the sift-down loop, the heap construction and the extraction. *)
Fixpoint sift (fuel : nat) (v : list Q) (a : list nat) (o n tmp i j : nat) : list nat :=
  match fuel with
  | 0 => upd (o + i - 1) tmp a
  | S f =>
      if j <=? n then
        let j' := if (j <? n) && less (key v a (o + j - 1)) (key v a (o + j))
                  then j + 1 else j in
        if less (nth tmp v 0%Q) (key v a (o + j' - 1))
        then sift f v (upd (o + i - 1) (nth (o + j' - 1) a 0) a) o n tmp j' (j' + j')
        else upd (o + i - 1) tmp a
      else upd (o + i - 1) tmp a
  end.

Definition heapify (v : list Q) (a : list nat) (o n : nat) : list nat :=
  fold_left (fun a l => sift n v a o n (nth (o + l - 1) a 0) l (2 * l))
            (rev (seq 1 (n / 2))) a.

Fixpoint extract (fuel : nat) (v : list Q) (a : list nat) (o n : nat) : list nat :=
  match fuel with
  | 0 => a
  | S f =>
      if 1 <? n then
        let tmp := nth (o + n - 1) a 0 in
        let a1 := upd (o + n - 1) (nth o a 0) a in
        extract f v (sift n v a1 o (n - 1) tmp 1 2) o (n - 1)
      else a
  end.

Definition aheapsort (v : list Q) (a : list nat) (o n : nat) : list nat :=
  extract n v (heapify v a o n) o n.

(** The main loop on the segment [pl..pr] with depth budget [cdepth]. *)
Fixpoint quick (fuel : nat) (v : list Q) (a : list nat) (pl pr : nat) (cdepth : Z)
  : list nat :=
  match fuel with
  | 0 => a
  | S f =>
      if 16 <? pr - pl then
        let '(a1, pi) := partition v a pl pr in
        let d := (cdepth - 1)%Z in
        let popped (a : list nat) (l r : nat) :=
          if (d <? 0)%Z then aheapsort v a l (r - l + 1) else quick f v a l r d in
        if pi - pl <? pr - pi
        then popped (quick f v a1 pl (pi - 1) d) (pi + 1) pr
        else popped (quick f v a1 (pi + 1) pr d) pl (pi - 1)
      else insertion v a pl pr
  end.

(** [np.argsort(v, kind="quicksort")]: the positions [0..n-1] sorted in
    place, with a depth budget of twice the binary logarithm of [n]. *)
Definition aquicksort (v : list Q) : list nat :=
  let n := List.length v in
  quick n v (seq 0 n) 0 (n - 1) (2 * Z.of_nat (Nat.log2 n)).

(** The row test behind [series == label] and behind membership in a
    group. *)
Definition has_label (proj : Row -> option string) (label : string) (r : Row) : bool :=
  match proj r with Some v => String.eqb v label | None => false end.

(** ** The script *)

(** The state of a path on disk, as [pd.read_csv] sees it: no file, a file
    the parser rejects, or a file that parses to a frame.  The parser is
    pandas' own and is not part of the repository. *)
Inductive file : Type :=
| NoFile
| Unparsable
| Csv (df : DataFrame).

Definition filesystem : Type := string -> file.

Definition read_csv (fs : filesystem) (path : string) : result DataFrame :=
  match fs path with
  | NoFile => Raise FileNotFoundError
  | Unparsable => Raise ParserError
  | Csv df => Ok df
  end.

(** [load_data()].  [st.cache_data] only memoises the call. *)
Definition load_data (fs : filesystem) : result DataFrame :=
  read_csv fs "data/processed/dashboard_data.csv".

(** Tab 1: executive overview. *)
Module Tab1.

Definition total_customers (data : DataFrame) : result nat :=
  s <- getitem "customer_id" customer_id data ;;
  Ok (nunique s).

Definition churn_rate (data : DataFrame) : result float :=
  s <- getitem "actual_churn" actual_churn data ;;
  Ok (fmul (mean s) (Fin 100)).

Definition high_risk_pct (data : DataFrame) : result float :=
  s <- getitem "risk_level" risk_level data ;;
  Ok (fmul (mean (as_float (eq_label "High Risk" s))) (Fin 100)).

Definition avg_clv (data : DataFrame) : result float :=
  s <- getitem "clv_proxy" clv_proxy data ;;
  Ok (mean s).

(** What the four [metric] tiles show. *)
Record Metrics : Type := mkMetrics {
  shown_total_customers : nat;
  shown_churn_rate : string;
  shown_high_risk_pct : string;
  shown_avg_clv : string
}.

Definition metrics (data : DataFrame) : result Metrics :=
  n <- total_customers data ;;
  c <- churn_rate data ;;
  h <- high_risk_pct data ;;
  a <- avg_clv data ;;
  Ok (mkMetrics n (format_2f c) (format_2f h) (format_2f a)).

Definition risk_counts (data : DataFrame) : result (list (string * nat)) :=
  s <- getitem "risk_level" risk_level data ;;
  Ok (value_counts s).

End Tab1.

(** Tab 2: customer segments. *)
Module Tab2.

(** A row of [segment_summary] after [reset_index()]. *)
Record Summary : Type := mkSummary {
  segment_label : string;
  customers : nat;
  avg_clv : float;
  churn_rate : float
}.

(** The group keys of [groupby("segment")]: the distinct labels that are
    present, in the order pandas sorts them ([sort=True]); rows without a
    label belong to no group ([dropna=True]).  How the keys compare depends on
    the type [read_csv] gave the column (numbers by value, text by
    character), so the sort is a parameter [key_sort], which only rearranges
    the keys. *)
Definition group_keys (key_sort : list string -> list string) (rs : list Row)
  : list string :=
  key_sort (nodup string_dec (dropnone (map segment rs))).

(** The named aggregation on one group: ["count"] counts the cells that are
    present, ["mean"] is [Series.mean]. *)
Definition aggregate (rs : list Row) (k : string) : Summary :=
  let g := filter (has_label segment k) rs in
  {| segment_label := k;
     customers := List.length (dropnone (map customer_id g));
     avg_clv := mean (map clv_proxy g);
     churn_rate := mean (map actual_churn g) |}.

Definition segment_summary (key_sort : list string -> list string)
    (data : DataFrame) : result (list Summary) :=
  _ <- check_columns ["segment"; "customer_id"; "clv_proxy"; "actual_churn"] data ;;
  Ok (map (aggregate (rows data)) (group_keys key_sort (rows data))).

End Tab2.

(** The key order of a [segment] column read as text: by character. *)
Definition text_sort : list string -> list string := isort String.leb.

(** Tab 3: churn risk analysis. *)
Module Tab3.

Definition options : list string :=
  ["All"; "High Risk"; "Medium Risk"; "Low Risk"].

(** [st.selectbox(label, options)]: the option at the position picked in the
    widget.  The widget offers the listed options and nothing else. *)
Definition selectbox (opts : list string) (pick : nat) : option string :=
  nth_error opts pick.

Definition risk_filter (pick : nat) : option string := selectbox options pick.

Definition filtered_data (risk_filter : string) (data : DataFrame)
  : result DataFrame :=
  let filtered_data := data in
  if negb (String.eqb risk_filter "All")
  then
    s <- getitem "risk_level" risk_level filtered_data ;;
    Ok (getmask (eq_label risk_filter s) filtered_data)
  else Ok filtered_data.

(** The table handed to [st.dataframe]. *)
Definition table (argsort : list Q -> list nat)
    (risk_filter : string) (data : DataFrame) : result DataFrame :=
  f <- filtered_data risk_filter data ;;
  v <- getitems ["customer_id"; "segment"; "clv_proxy";
                 "churn_probability"; "risk_level"] f ;;
  sort_values argsort "churn_probability" churn_probability false v.

End Tab3.

(** Tab 4: action recommendations. *)
Module Tab4.

Definition priority_customers (data : DataFrame) : result DataFrame :=
  risk <- getitem "risk_level" risk_level data ;;
  clv <- getitem "clv_proxy" clv_proxy data ;;
  clv_all <- getitem "clv_proxy" clv_proxy data ;;
  Ok (getmask (mask_and (eq_label "High Risk" risk)
                        (gt_scalar (median clv_all) clv)) data).

(** The table handed to [st.dataframe]. *)
Definition table (argsort : list Q -> list nat) (data : DataFrame)
  : result DataFrame :=
  p <- priority_customers data ;;
  v <- getitems ["customer_id"; "segment"; "clv_proxy"; "churn_probability"] p ;;
  sort_values argsort "churn_probability" churn_probability false v.

End Tab4.

(** ** The median as float64 computes it *)

(** For an even number of present cells the median is the float64 mean of
    the two middle cells, [(a + b) / 2] with the sum rounded; the result can
    differ from the exact midpoint in the last place and can leave the finite
    range.  What float64 returns for two finite cells is a function of the
    two cells; it is the parameter [mid] below, and its values are of the
    following type. *)
Inductive xfloat : Type :=
| NegInf
| Finite (q : Q)
| PosInf
| Undefined.

(** [x > t] for a cell [x] and a threshold [t]: False when either side is
    NaN, True for every number against minus infinity. *)
Definition xgt (x : float) (t : xfloat) : bool :=
  match x, t with
  | Fin a, Finite m => negb (Qle_bool a m)
  | Fin _, NegInf => true
  | _, _ => false
  end.

(** The midpoint taken exactly, without rounding. *)
Definition exact_mid (a b : Q) : xfloat := Finite ((a + b) / 2)%Q.

(** Tab 4 with the float64 midpoint left open. *)
Module Rounded.

(** [Series.median()]: the middle cell for an odd number of present cells,
    [mid] of the two middle cells for an even number, NaN for none. *)
Definition median (mid : Q -> Q -> xfloat) (s : list float) : xfloat :=
  let v := isort Qle_bool (dropna s) in
  let n := List.length v in
  match n with
  | O => Undefined
  | _ =>
      if Nat.even n
      then mid (nth (n / 2 - 1) v 0%Q) (nth (n / 2) v 0%Q)
      else Finite (nth (n / 2) v 0%Q)
  end.

Definition gt_scalar (t : xfloat) (s : list float) : list bool :=
  map (fun v => xgt v t) s.

Definition priority_customers (mid : Q -> Q -> xfloat) (data : DataFrame)
  : result DataFrame :=
  risk <- getitem "risk_level" risk_level data ;;
  clv <- getitem "clv_proxy" clv_proxy data ;;
  clv_all <- getitem "clv_proxy" clv_proxy data ;;
  Ok (getmask (mask_and (eq_label "High Risk" risk)
                        (gt_scalar (median mid clv_all) clv)) data).

(** The table handed to [st.dataframe]. *)
Definition table (mid : Q -> Q -> xfloat) (argsort : list Q -> list nat)
    (data : DataFrame) : result DataFrame :=
  p <- priority_customers mid data ;;
  v <- getitems ["customer_id"; "segment"; "clv_proxy"; "churn_probability"] p ;;
  sort_values argsort "churn_probability" churn_probability false v.

End Rounded.

(** ** The spec's 4-row scenario *)

Definition row_A : Row :=
  mkRow (Some "A") (Some "S1") (Fin 100) (Fin (9 # 10)) (Some "High Risk") (Fin 1).
Definition row_B : Row :=
  mkRow (Some "B") (Some "S1") (Fin 50) (Fin (2 # 10)) (Some "Low Risk") (Fin 0).
Definition row_C : Row :=
  mkRow (Some "C") (Some "S2") (Fin 200) (Fin (8 # 10)) (Some "High Risk") (Fin 1).
Definition row_D : Row :=
  mkRow (Some "D") (Some "S2") (Fin 30) (Fin (1 # 10)) (Some "Low Risk") (Fin 0).

Definition schema : list string :=
  ["customer_id"; "segment"; "clv_proxy"; "churn_probability";
   "risk_level"; "actual_churn"].

Definition scenario : DataFrame := mkFrame schema [row_A; row_B; row_C; row_D].

(** ** Properties the claims are stated with *)

(** The frame has every column of the CustomerRecord schema. *)
Definition has_schema (df : DataFrame) : Prop :=
  forallb (fun c => has_column c df) schema = true.

(** [x] may stand before [y] in a descending order that puts missing keys
    last. *)
Definition fge (x y : float) : Prop :=
  match x, y with
  | Fin a, Fin b => (b <= a)%Q
  | _, NaN => True
  | NaN, Fin _ => False
  end.

Definition sorted_descending (key : Row -> float) (rs : list Row) : Prop :=
  StronglySorted fge (map key rs).

Definition same_key (key : Row -> float) (k : float) (r : Row) : bool :=
  match key r, k with
  | Fin a, Fin b => Qeq_bool a b
  | NaN, NaN => true
  | _, _ => false
  end.

(** Stability: the rows of each key value come out in the order they went
    in. *)
Definition ties_keep_order (key : Row -> float) (input output : list Row) : Prop :=
  forall k, filter (same_key key k) output = filter (same_key key k) input.

(** The text cell holds a value. *)
Definition notna (x : option string) : bool :=
  match x with Some _ => true | None => false end.

(** [x] is a number, [y] is a number, and [x < y]. *)
Definition flt (x y : float) : Prop :=
  match x, y with
  | Fin a, Fin b => (a < b)%Q
  | _, _ => False
  end.


(** A midpoint rounded up to the larger of the two cells, as float64 does
    when the two cells are adjacent numbers and the tie goes upward. *)
Definition upper_mid (a b : Q) : xfloat := Finite b.

(** A table with ties: E and F are "High Risk", lie above the median
    [clv_proxy] (60) and have the same [churn_probability]. *)
Definition row_E : Row :=
  mkRow (Some "E") (Some "S1") (Fin 100) (Fin (5 # 10)) (Some "High Risk") (Fin 1).
Definition row_F : Row :=
  mkRow (Some "F") (Some "S1") (Fin 200) (Fin (5 # 10)) (Some "High Risk") (Fin 0).
Definition row_G : Row :=
  mkRow (Some "G") (Some "S2") (Fin 10) (Fin (1 # 10)) (Some "Low Risk") (Fin 0).
Definition row_H : Row :=
  mkRow (Some "H") (Some "S2") (Fin 20) (Fin (2 # 10)) (Some "Low Risk") (Fin 0).

Definition ties : DataFrame := mkFrame schema [row_E; row_F; row_G; row_H].

(** A table with many ties: twenty "High Risk" rows whose [clv_proxy] lies
    above the median of the column and whose [churn_probability] takes the
    values 0.7, 0.8 and 0.9 in turn, followed by twenty-one "Low Risk"
    rows. *)
Definition crowd_row (i : nat) : Row :=
  mkRow (Some (String.append "c" (digits (Z.of_nat i))))
        (Some "S1")
        (Fin (if i <? 20 then 100 else 10))
        (Fin (Z.of_nat (7 + i mod 3) # 10))
        (Some (if i <? 20 then "High Risk" else "Low Risk"))
        (Fin 0).

Definition crowd : DataFrame := mkFrame schema (map crowd_row (seq 0 41)).

(** A table with a row whose customer id cell is empty. *)
Definition row_N : Row :=
  mkRow None (Some "S1") (Fin 70) (Fin (4 # 10)) (Some "Medium Risk") (Fin 0).

Definition anonymous : DataFrame := mkFrame schema [row_A; row_N].

(** A table in which customer A appears on two rows. *)
Definition row_A2 : Row :=
  mkRow (Some "A") (Some "S2") (Fin 20) (Fin (3 # 10)) (Some "Low Risk") (Fin 0).

Definition repeated : DataFrame := mkFrame schema [row_A; row_B; row_A2].

(** A table with a row whose segment cell is empty. *)
Definition row_Z : Row :=
  mkRow (Some "Z") None (Fin 70) (Fin (4 # 10)) (Some "Medium Risk") (Fin 0).

Definition unlabelled : DataFrame := mkFrame schema [row_A; row_Z].

(** The row read at a position of a frame that has none there. *)
Definition blank_row : Row := mkRow None None NaN NaN None NaN.

(** One of the listed columns is absent from the frame. *)
Definition lacks (cs : list string) (df : DataFrame) : Prop :=
  exists c, In c cs /\ has_column c df = false.

(** The computation stops with the KeyError of a column of [cs] that is
    absent from the frame. *)
Definition key_error {A} (cs : list string) (df : DataFrame) (m : result A) : Prop :=
  exists c, In c cs /\ has_column c df = false /\ m = Raise (KeyError c).

(** * Proofs *)

(** ** Column access *)

Lemma getitem_ok {A} (c : string) (proj : Row -> A) (df : DataFrame) :
  has_column c df = true -> getitem c proj df = Ok (map proj (rows df)).
Proof. unfold getitem; intros ->; reflexivity. Qed.

Lemma getitem_missing {A} (c : string) (proj : Row -> A) (df : DataFrame) :
  has_column c df = false -> getitem c proj df = Raise (KeyError c).
Proof. unfold getitem; intros ->; reflexivity. Qed.

Lemma check_columns_ok (cs : list string) (df : DataFrame) :
  (forall c, In c cs -> has_column c df = true) -> check_columns cs df = Ok tt.
Proof.
  induction cs as [|c cs IH]; intros H; simpl.
  - reflexivity.
  - rewrite (H c (or_introl eq_refl)). apply IH.
    intros c' Hc'. apply H. right. exact Hc'.
Qed.

Lemma check_columns_missing (cs : list string) (df : DataFrame) (c : string) :
  In c cs -> has_column c df = false ->
  exists c', In c' cs /\ has_column c' df = false /\
             check_columns cs df = Raise (KeyError c').
Proof.
  induction cs as [|c0 cs IH]; intros Hin Hc; simpl.
  - destruct Hin.
  - destruct (has_column c0 df) eqn:E0.
    + destruct Hin as [->|Hin]; [congruence|].
      destruct (IH Hin Hc) as (c' & Hc' & Hm & Hr).
      exists c'. repeat split; auto.
    + exists c0. repeat split; auto.
Qed.

Lemma getitems_ok (cs : list string) (df : DataFrame) :
  (forall c, In c cs -> has_column c df = true) ->
  getitems cs df = Ok {| columns := cs; rows := rows df |}.
Proof.
  intros H. unfold getitems. rewrite (check_columns_ok cs df H). reflexivity.
Qed.

Lemma has_column_In (c : string) (df : DataFrame) :
  has_column c df = true <-> In c (columns df).
Proof.
  unfold has_column. rewrite existsb_exists. split.
  - intros (x & Hx & He). apply String.eqb_eq in He. subst. exact Hx.
  - intros H. exists c. split; [exact H|apply String.eqb_refl].
Qed.

(** ** Masks *)

Lemma select_map {A} (p : A -> bool) (l : list A) :
  select (map p l) l = filter p l.
Proof.
  induction l as [|x l IH]; simpl; [reflexivity|].
  rewrite IH. reflexivity.
Qed.

Lemma mask_and_map {A} (p q : A -> bool) (l : list A) :
  mask_and (map p l) (map q l) = map (fun x => p x && q x) l.
Proof.
  induction l as [|x l IH]; simpl; [reflexivity|].
  rewrite IH. reflexivity.
Qed.

Lemma eq_label_rows (label : string) (proj : Row -> option string) (rs : list Row) :
  eq_label label (map proj rs) =
  map (fun r => match proj r with Some v => String.eqb v label | None => false end) rs.
Proof. unfold eq_label. rewrite map_map. reflexivity. Qed.


Lemma has_label_iff (proj : Row -> option string) (label : string) (r : Row) :
  has_label proj label r = true <-> proj r = Some label.
Proof.
  unfold has_label. destruct (proj r) as [v|].
  - rewrite String.eqb_eq. split; congruence.
  - split; discriminate.
Qed.

Lemma fgt_iff (x y : float) : fgt x y = true <-> flt y x.
Proof.
  destruct x as [|a], y as [|b]; simpl; try (split; [discriminate|tauto]).
  rewrite negb_true_iff. split.
  - intros H. apply Qnot_le_lt. intros Hle. apply Qle_bool_iff in Hle. congruence.
  - intros Hlt. destruct (Qle_bool a b) eqn:E; [|reflexivity].
    apply Qle_bool_iff in E. exfalso. exact (Qlt_not_le _ _ Hlt E).
Qed.

(** ** Insertion sort *)

Section IsortFacts.
Context {A : Type} (leb : A -> A -> bool).

Lemma insert_perm (x : A) (l : list A) : Permutation (insert leb x l) (x :: l).
Proof.
  induction l as [|y l IH]; simpl.
  - apply Permutation_refl.
  - destruct (leb x y).
    + apply Permutation_refl.
    + apply perm_trans with (y :: x :: l).
      * apply perm_skip. exact IH.
      * apply perm_swap.
Qed.

Lemma isort_perm (l : list A) : Permutation (isort leb l) l.
Proof.
  induction l as [|x l IH]; simpl.
  - apply perm_nil.
  - apply perm_trans with (x :: isort leb l).
    + apply insert_perm.
    + apply perm_skip. exact IH.
Qed.

(** Sortedness, for an order [R] that [leb] decides in either direction. *)
Variable R : A -> A -> Prop.
Hypothesis R_trans : forall x y z, R x y -> R y z -> R x z.
Hypothesis leb_true : forall x y, leb x y = true -> R x y.
Hypothesis leb_false : forall x y, leb x y = false -> R y x.

Lemma insert_sorted (x : A) (l : list A) :
  StronglySorted R l -> StronglySorted R (insert leb x l).
Proof.
  induction 1 as [|y l Hs IH Hy]; simpl.
  - constructor; constructor.
  - destruct (leb x y) eqn:E.
    + constructor.
      * constructor; assumption.
      * constructor; [apply leb_true; exact E|].
        eapply Forall_impl; [|exact Hy].
        intros z Hz. apply R_trans with y; [apply leb_true; exact E|exact Hz].
    + constructor; [exact IH|].
      apply (Permutation_Forall (Permutation_sym (insert_perm x l))).
      constructor; [apply leb_false; exact E|exact Hy].
Qed.

Lemma isort_sorted (l : list A) : StronglySorted R (isort leb l).
Proof.
  induction l as [|x l IH]; simpl.
  - constructor.
  - apply insert_sorted. exact IH.
Qed.
End IsortFacts.

(** ** The median *)








(** The median is a number exactly when some value is present. *)
Lemma median_NaN (s : list float) : median s = NaN <-> dropna s = [].
Proof.
  unfold median.
  pose proof (Permutation_length (isort_perm Qle_bool (dropna s))) as Hl.
  destruct (isort Qle_bool (dropna s)) as [|x w].
  - split; [|reflexivity]. intros _.
    destruct (dropna s); [reflexivity|discriminate Hl].
  - cbn [List.length] in *. split.
    + destruct (Nat.even (S (List.length w))); intros H; discriminate H.
    + intros E. rewrite E in Hl. discriminate Hl.
Qed.

(** ** Tab 4: the priority subset *)

Lemma filter_present (items : list float) :
  filter (fun x => negb (isna x)) items = map Fin (dropna items).
Proof.
  induction items as [|[|q] items IH]; simpl; [reflexivity|exact IH|].
  rewrite IH. reflexivity.
Qed.


Lemma Qle_bool_false (a b : Q) : Qle_bool a b = false -> (b < a)%Q.
Proof.
  intros H. apply Qnot_le_lt. intros Hle. apply Qle_bool_iff in Hle. congruence.
Qed.


Lemma xgt_rows (t : xfloat) (proj : Row -> float) (rs : list Row) :
  Rounded.gt_scalar t (map proj rs) = map (fun r => xgt (proj r) t) rs.
Proof. unfold Rounded.gt_scalar. apply map_map. Qed.

Lemma rounded_priority_customers_rows (mid : Q -> Q -> xfloat) (data : DataFrame) :
  has_column "risk_level" data = true ->
  has_column "clv_proxy" data = true ->
  Rounded.priority_customers mid data =
  Ok {| columns := columns data;
        rows := filter (fun r => has_label risk_level "High Risk" r &&
                                 xgt (clv_proxy r)
                                     (Rounded.median mid (map clv_proxy (rows data))))
                       (rows data) |}.
Proof.
  intros Hr Hc. unfold Rounded.priority_customers.
  rewrite (getitem_ok _ _ _ Hr), (getitem_ok _ _ _ Hc). simpl.
  unfold getmask. rewrite eq_label_rows, xgt_rows, mask_and_map, select_map.
  reflexivity.
Qed.

(** With the midpoint taken exactly, the rounded model is the exact one. *)
Lemma xgt_exact_median (x : float) (s : list float) :
  xgt x (Rounded.median exact_mid s) = fgt x (median s).
Proof.
  unfold Rounded.median, median.
  destruct (List.length (isort Qle_bool (dropna s))) as [|n].
  - destruct x; reflexivity.
  - destruct (Nat.even (S n)); destruct x; reflexivity.
Qed.

Lemma priority_customers_exact (data : DataFrame) :
  Rounded.priority_customers exact_mid data = Tab4.priority_customers data.
Proof.
  unfold Rounded.priority_customers, Tab4.priority_customers.
  destruct (getitem "risk_level" risk_level data) as [risk|e]; [|reflexivity].
  cbn [bind].
  destruct (getitem "clv_proxy" clv_proxy data) as [clv|e]; [|reflexivity].
  cbn [bind]. do 3 f_equal.
  unfold Rounded.gt_scalar, gt_scalar. apply map_ext.
  intros x. apply xgt_exact_median.
Qed.

Lemma table_exact (argsort : list Q -> list nat) (data : DataFrame) :
  Rounded.table exact_mid argsort data = Tab4.table argsort data.
Proof.
  unfold Rounded.table, Tab4.table. rewrite priority_customers_exact. reflexivity.
Qed.



(** On the scenario the median of the whole column is 75 and rows A and C are
    selected.  The median of the "High Risk" rows alone is 150: taking the
    threshold after filtering would keep row C only. *)
Example scenario_priority :
  feq (median (map clv_proxy (rows scenario))) (Fin 75) /\
  Tab4.priority_customers scenario = Ok (mkFrame schema [row_A; row_C]) /\
  feq (median (map clv_proxy
                 (filter (has_label risk_level "High Risk") (rows scenario))))
      (Fin 150) /\
  filter (fun r => fgt (clv_proxy r)
                       (median (map clv_proxy
                          (filter (has_label risk_level "High Risk") (rows scenario)))))
         (filter (has_label risk_level "High Risk") (rows scenario)) = [row_C].
Proof. repeat split. Qed.

(** The rounding of the midpoint decides whether a row is selected.  Of the
    two "High Risk" rows of [ties] the cells are 100 and 200 and the two
    middle cells of the column are 20 and 100: with the midpoint 60 both rows
    are selected, with a midpoint rounded up to the larger cell the row whose
    cell is 100 is not. *)
Example rounded_midpoint_matters :
  Rounded.priority_customers exact_mid ties = Ok (mkFrame schema [row_E; row_F]) /\
  Rounded.priority_customers upper_mid ties = Ok (mkFrame schema [row_F]).
Proof. split; reflexivity. Qed.

(** ** Tab 3: the risk filter, and the risk distribution of tab 1 *)

Lemma filtered_data_all (data : DataFrame) :
  Tab3.filtered_data "All" data = Ok data.
Proof. reflexivity. Qed.

Lemma filtered_data_label (sel : string) (data : DataFrame) :
  sel <> "All" ->
  has_column "risk_level" data = true ->
  Tab3.filtered_data sel data =
  Ok {| columns := columns data;
        rows := filter (has_label risk_level sel) (rows data) |}.
Proof.
  intros Hsel Hr. unfold Tab3.filtered_data.
  apply String.eqb_neq in Hsel. rewrite Hsel. simpl.
  rewrite (getitem_ok _ _ _ Hr). simpl.
  unfold getmask. rewrite eq_label_rows, select_map. reflexivity.
Qed.

Lemma lookup_map (f : string -> nat) (label : string) (ks : list string) :
  lookup label (map (fun k => (k, f k)) ks) =
  if in_dec string_dec label ks then Some (f label) else None.
Proof.
  induction ks as [|k ks IH]; simpl; [reflexivity|].
  destruct (String.eqb k label) eqn:E.
  - apply String.eqb_eq in E. subst k.
    destruct (string_dec label label) as [Y|N]; [reflexivity|congruence].
  - apply String.eqb_neq in E. rewrite IH.
    destruct (string_dec k label) as [Heq|Hne]; [congruence|].
    destruct (in_dec string_dec label ks); reflexivity.
Qed.

Lemma lookup_value_counts (label : string) (s : list (option string)) :
  lookup label (value_counts s) =
  if in_dec string_dec label (dropnone s)
  then Some (count_occ string_dec (dropnone s) label)
  else None.
Proof.
  unfold value_counts. rewrite lookup_map.
  destruct (in_dec string_dec label (nodup string_dec (dropnone s))) as [H|H];
    destruct (in_dec string_dec label (dropnone s)) as [H'|H']; try reflexivity;
    rewrite nodup_In in H; contradiction.
Qed.

Lemma count_label_rows (proj : Row -> option string) (label : string) (rs : list Row) :
  count_occ string_dec (dropnone (map proj rs)) label =
  List.length (filter (has_label proj label) rs).
Proof.
  induction rs as [|r rs IH]; simpl; [reflexivity|].
  unfold has_label at 1. destruct (proj r) as [v|]; simpl; [|exact IH].
  destruct (string_dec v label) as [->|N].
  - rewrite String.eqb_refl. simpl. rewrite IH. reflexivity.
  - apply String.eqb_neq in N. rewrite N. exact IH.
Qed.

Lemma In_dropnone (s : list (option string)) (v : string) :
  In v (dropnone s) <-> In (Some v) s.
Proof.
  induction s as [|[w|] s IH]; simpl.
  - tauto.
  - rewrite IH. split; (intros [H|H]; [left; congruence|right; exact H]).
  - rewrite IH. split; [tauto|]. intros [H|H]; [discriminate|exact H].
Qed.

(** C4.  For each of the three risk labels, the filter returns the rows of
    the table that carry exactly that label, in table order; their number is
    the count that [risk_counts] records under the label, and the label is
    missing from [risk_counts] only when no row carries it. *)
Theorem C4_risk_filter_label (data : DataFrame) (L : string) :
  has_column "risk_level" data = true ->
  In L ["High Risk"; "Medium Risk"; "Low Risk"] ->
  exists (f : DataFrame) (vc : list (string * nat)) (test : Row -> bool),
    Tab3.filtered_data L data = Ok f /\
    Tab1.risk_counts data = Ok vc /\
    columns f = columns data /\
    (forall r, test r = true <-> risk_level r = Some L) /\
    rows f = filter test (rows data) /\
    (forall r, In r (rows f) <-> In r (rows data) /\ risk_level r = Some L) /\
    (forall n, lookup L vc = Some n -> List.length (rows f) = n) /\
    (lookup L vc = None -> rows f = []).
Proof.
  intros Hr HL.
  assert (Hsel : L <> "All").
  { simpl in HL. intros ->. repeat (destruct HL as [HL|HL]; [discriminate|]).
    exact HL. }
  exists {| columns := columns data;
            rows := filter (has_label risk_level L) (rows data) |},
         (value_counts (map risk_level (rows data))),
         (has_label risk_level L).
  split; [apply filtered_data_label; assumption|].
  split; [unfold Tab1.risk_counts; rewrite (getitem_ok _ _ _ Hr); reflexivity|].
  split; [reflexivity|].
  split; [intros r; apply has_label_iff|].
  split; [reflexivity|]. simpl.
  split; [intros r; rewrite filter_In, has_label_iff; tauto|].
  rewrite lookup_value_counts.
  destruct (in_dec string_dec L (dropnone (map risk_level (rows data)))) as [Hin|Hout].
  - split; [|discriminate]. intros n Hn. inversion Hn.
    symmetry. apply count_label_rows.
  - split; [discriminate|]. intros _.
    destruct (filter (has_label risk_level L) (rows data)) as [|r rs] eqn:E;
      [reflexivity|].
    exfalso. apply Hout. apply In_dropnone.
    assert (Hin : In r (filter (has_label risk_level L) (rows data)))
      by (rewrite E; left; reflexivity).
    apply filter_In in Hin. destruct Hin as [Hin Hl].
    apply has_label_iff in Hl. rewrite <- Hl. apply in_map. exact Hin.
Qed.

Lemma C4_risk_filter_label_witness :
  exists (f : DataFrame) (vc : list (string * nat)) (test : Row -> bool),
    Tab3.filtered_data "High Risk" scenario = Ok f /\
    Tab1.risk_counts scenario = Ok vc /\
    columns f = columns scenario /\
    (forall r, test r = true <-> risk_level r = Some "High Risk") /\
    rows f = filter test (rows scenario) /\
    (forall r, In r (rows f) <-> In r (rows scenario) /\ risk_level r = Some "High Risk") /\
    (forall n, lookup "High Risk" vc = Some n -> List.length (rows f) = n) /\
    (lookup "High Risk" vc = None -> rows f = []).
Proof.
  apply (C4_risk_filter_label scenario "High Risk").
  - reflexivity.
  - simpl. tauto.
Defined.

(** ** Positions and [take] *)

Lemma map_nth_positions {A} (d : A) (l : list A) :
  map (fun i => nth i l d) (seq 0 (List.length l)) = l.
Proof.
  induction l as [|x l IH]; simpl; [reflexivity|].
  f_equal. rewrite <- seq_shift, map_map. exact IH.
Qed.

Lemma positions_bound (p : list nat) (n : nat) :
  Permutation p (seq 0 n) -> Forall (fun i => i < n) p.
Proof.
  intros Hp. apply Forall_forall. intros i Hi.
  apply (Permutation_in _ Hp) in Hi. apply in_seq in Hi. lia.
Qed.

Lemma take_ok {A} (d : A) (indexer : list nat) (l : list A) :
  Forall (fun i => i < List.length l) indexer ->
  take indexer l = Ok (map (fun i => nth i l d) indexer).
Proof.
  induction 1 as [|i indexer Hi _ IH]; simpl; [reflexivity|].
  rewrite (nth_error_nth' l d Hi), IH. reflexivity.
Qed.

Lemma take_out_of_range {A} (indexer : list nat) (l : list A) :
  Exists (fun i => List.length l <= i) indexer -> take indexer l = Raise IndexError.
Proof.
  induction indexer as [|i indexer IH]; intros H; simpl.
  - inversion H.
  - destruct (nth_error l i) as [x|] eqn:E; [|reflexivity].
    inversion H as [? ? Hi|? ? Hrest]; subst.
    + apply nth_error_None in Hi. congruence.
    + rewrite (IH Hrest). reflexivity.
Qed.

Lemma take_permutation {A} (d : A) (indexer : list nat) (l : list A) :
  Permutation indexer (seq 0 (List.length l)) ->
  Permutation (map (fun i => nth i l d) indexer) l.
Proof.
  intros Hp.
  apply perm_trans with (map (fun i => nth i l d) (seq 0 (List.length l))).
  - apply Permutation_map. exact Hp.
  - rewrite map_nth_positions. apply Permutation_refl.
Qed.

(** Reading a mapped list through positions. *)
Lemma map_at_positions {A B} (f : A -> B) (l : list A) (d : A) (d' : B)
    (p : list nat) :
  Forall (fun i => i < List.length l) p ->
  map (fun i => f (nth i l d)) p = map (fun i => nth i (map f l) d') p.
Proof.
  intros Hp. apply map_ext_in. intros i Hi.
  rewrite Forall_forall in Hp. specialize (Hp i Hi).
  rewrite (nth_indep (map f l) d' (f d)) by (rewrite length_map; exact Hp).
  symmetry. apply map_nth.
Qed.

(** The positions a mask selects are those whose element passes the test. *)
Lemma select_positions {B} (f : B -> bool) (d : B) (items : list B) (s : nat) :
  select (map f items) (seq s (List.length items)) =
  filter (fun i => f (nth (i - s) items d)) (seq s (List.length items)).
Proof.
  revert s. induction items as [|x items IH]; intros s; simpl; [reflexivity|].
  rewrite Nat.sub_diag. rewrite (IH (S s)).
  assert (E : filter (fun i => f (nth (i - S s) items d)) (seq (S s) (List.length items)) =
              filter (fun i => f (match i - s with 0 => x | S m => nth m items d end))
                     (seq (S s) (List.length items))).
  { apply filter_ext_in. intros i Hi. apply in_seq in Hi.
    replace (i - s) with (S (i - S s)) by lia. reflexivity. }
  rewrite E. reflexivity.
Qed.

Lemma filter_partition_perm {A} (f : A -> bool) (l : list A) :
  Permutation (filter (fun x => negb (f x)) l ++ filter f l) l.
Proof.
  induction l as [|x l IH]; simpl; [apply perm_nil|].
  destruct (f x); simpl.
  - apply Permutation_sym. apply Permutation_cons_app. apply Permutation_sym. exact IH.
  - apply perm_skip. exact IH.
Qed.

Lemma filter_missing (items : list float) :
  exists k, filter isna items = repeat NaN k.
Proof.
  induction items as [|[|q] items [k IH]]; simpl.
  - exists 0. reflexivity.
  - exists (S k). rewrite IH. reflexivity.
  - exists k. exact IH.
Qed.

Lemma select_positions0 {B} (f : B -> bool) (d : B) (items : list B) :
  select (map f items) (seq 0 (List.length items)) =
  filter (fun i => f (nth i items d)) (seq 0 (List.length items)).
Proof.
  rewrite (select_positions f d items 0).
  apply filter_ext. intros i. rewrite Nat.sub_0_r. reflexivity.
Qed.

Lemma keys_at_selected {B} (f : B -> bool) (d : B) (items : list B) :
  map (fun i => nth i items d)
      (filter (fun i => f (nth i items d)) (seq 0 (List.length items))) =
  filter f items.
Proof.
  rewrite <- (filter_map_swap f (fun i => nth i items d)).
  rewrite map_nth_positions. reflexivity.
Qed.

(** ** Sorted lists *)

Lemma StronglySorted_app {A} (R : A -> A -> Prop) (l1 l2 : list A) :
  StronglySorted R l1 -> StronglySorted R l2 ->
  (forall x y, In x l1 -> In y l2 -> R x y) ->
  StronglySorted R (l1 ++ l2).
Proof.
  induction 1 as [|x l1 Hs IH Hx]; intros H2 Hc; simpl; [exact H2|].
  constructor.
  - apply IH; [exact H2|]. intros a b Ha Hb. apply Hc; [right; exact Ha|exact Hb].
  - apply Forall_app. split; [exact Hx|].
    apply Forall_forall. intros y Hy. apply Hc; [left; reflexivity|exact Hy].
Qed.

Lemma repeat_NaN_sorted (k : nat) : StronglySorted fge (repeat NaN k).
Proof.
  induction k as [|k IH]; simpl; constructor; [exact IH|].
  apply Forall_forall. intros y Hy. apply repeat_spec in Hy. subst y. exact I.
Qed.

Lemma descending_keys_sorted (v : list Q) (k : nat) :
  StronglySorted Qle v ->
  StronglySorted fge (map Fin (rev v) ++ repeat NaN k).
Proof.
  intros Hv. apply StronglySorted_app.
  - induction Hv as [|x v Hs IH Hx]; simpl; [constructor|].
    rewrite map_app. apply StronglySorted_app; [exact IH|repeat constructor|].
    intros a b Ha Hb. destruct Hb as [<-|[]].
    apply in_map_iff in Ha. destruct Ha as (q & <- & Hq).
    apply in_rev in Hq. rewrite Forall_forall in Hx. simpl. apply Hx. exact Hq.
  - apply repeat_NaN_sorted.
  - intros a b _ Hb. apply repeat_spec in Hb. subst b. destruct a; exact I.
Qed.

(** ** [nargsort] and [sort_values], descending *)

Section Descending.
Variable argsort : list Q -> list nat.
Hypothesis argsort_ok : argsort_contract argsort.

Lemma nargsort_descending (items : list float) :
  exists indexer,
    nargsort argsort items false = Ok indexer /\
    Permutation indexer (seq 0 (List.length items)) /\
    StronglySorted fge (map (fun i => nth i items NaN) indexer).
Proof.
  set (n := List.length items).
  set (key := fun i => nth i items NaN).
  set (pos := filter (fun i => negb (isna (key i))) (seq 0 n)).
  set (nanpos := filter (fun i => isna (key i)) (seq 0 n)).
  set (v := rev (dropna items)).
  assert (Kpos : map key pos = map Fin (dropna items)).
  { unfold pos, key, n.
    rewrite (keys_at_selected (fun x => negb (isna x)) NaN items).
    apply filter_present. }
  assert (Knan : exists k, map key nanpos = repeat NaN k).
  { unfold nanpos, key, n. rewrite (keys_at_selected isna NaN items).
    apply filter_missing. }
  assert (Lpos : List.length (rev pos) = List.length v).
  { unfold v. rewrite !length_rev.
    rewrite <- (length_map key pos), Kpos, length_map. reflexivity. }
  destruct (argsort_ok v) as [Pv Sv].
  assert (Bv : Forall (fun i => i < List.length (rev pos)) (argsort v)).
  { rewrite Lpos. apply positions_bound. exact Pv. }
  set (ix := map (fun i => nth i (rev pos) 0) (argsort v)).
  exists (rev ix ++ nanpos).
  split; [|split].
  - unfold nargsort. simpl.
    rewrite map_map.
    rewrite (select_positions0 (fun x => negb (isna x)) NaN items).
    rewrite (select_positions0 isna NaN items).
    change (bind (take (argsort v) (rev pos))
                 (fun indexer => Ok (rev indexer ++ nanpos)) =
            Ok (rev ix ++ nanpos)).
    rewrite (take_ok 0 _ _ Bv). reflexivity.
  - apply perm_trans with (pos ++ nanpos).
    + apply Permutation_app_tail.
      apply perm_trans with ix; [apply Permutation_sym, Permutation_rev|].
      apply perm_trans with (rev pos); [|apply Permutation_sym, Permutation_rev].
      unfold ix. apply take_permutation. rewrite Lpos. exact Pv.
    + unfold pos, nanpos. apply filter_partition_perm.
  - destruct Knan as [k Knan].
    rewrite map_app, Knan, map_rev.
    assert (Kix : map key ix = map Fin (map (fun i => nth i v 0%Q) (argsort v))).
    { unfold ix. rewrite !map_map.
      rewrite (map_at_positions key (rev pos) 0 NaN _ Bv).
      rewrite map_rev, Kpos, <- map_rev. fold v.
      symmetry. apply map_at_positions. rewrite length_rev in Lpos.
      rewrite <- Lpos, <- length_rev. exact Bv. }
    rewrite Kix, <- map_rev.
    apply descending_keys_sorted. exact Sv.
Qed.

Lemma sort_values_descending (c : string) (proj : Row -> float) (df : DataFrame) :
  has_column c df = true ->
  exists rs,
    sort_values argsort c proj false df = Ok {| columns := columns df; rows := rs |} /\
    Permutation rs (rows df) /\
    sorted_descending proj rs.
Proof.
  intros Hc.
  destruct (nargsort_descending (map proj (rows df))) as (indexer & Hn & Hp & Hs).
  rewrite length_map in Hp.
  exists (map (fun i => nth i (rows df) blank_row) indexer).
  split; [|split].
  - unfold sort_values. rewrite (getitem_ok _ _ _ Hc). simpl.
    rewrite Hn. simpl.
    rewrite (take_ok blank_row _ _ (positions_bound _ _ Hp)). reflexivity.
  - apply take_permutation. exact Hp.
  - unfold sorted_descending. rewrite map_map.
    rewrite (map_at_positions proj (rows df) blank_row NaN _ (positions_bound _ _ Hp)).
    exact Hs.
Qed.
End Descending.

(** ** The insertion argsort meets the contract *)

Lemma StronglySorted_map {A B} (R : B -> B -> Prop) (f : A -> B) (l : list A) :
  StronglySorted (fun a b => R (f a) (f b)) l -> StronglySorted R (map f l).
Proof.
  induction 1 as [|x l Hs IH Hx]; simpl; constructor; [exact IH|].
  apply Forall_map. exact Hx.
Qed.

Lemma argsort_with_contract (leb : Q -> Q -> bool) :
  (forall a b, leb a b = true -> (a <= b)%Q) ->
  (forall a b, leb a b = false -> (b <= a)%Q) ->
  argsort_contract (argsort_with leb).
Proof.
  intros Ht Hf v. unfold argsort_with. split.
  - apply isort_perm.
  - apply StronglySorted_map.
    apply (isort_sorted _ (fun i j => (nth i v 0 <= nth j v 0)%Q)).
    + intros x y z Hxy Hyz. exact (Qle_trans _ _ _ Hxy Hyz).
    + intros x y. apply Ht.
    + intros x y. apply Hf.
Qed.

Lemma argsort_stable_contract : argsort_contract argsort_stable.
Proof.
  apply argsort_with_contract.
  - intros a b H. apply Qle_bool_iff. exact H.
  - intros a b H. apply Qlt_le_weak, Qle_bool_false. exact H.
Qed.

(** ** The displayed tables *)

Lemma has_schema_column (df : DataFrame) (c : string) :
  has_schema df -> In c schema -> has_column c df = true.
Proof.
  unfold has_schema. rewrite forallb_forall. intros H Hc. apply H. exact Hc.
Qed.

Lemma has_schema_columns (df : DataFrame) (cs : list string) :
  has_schema df -> incl cs schema -> forall c, In c cs -> has_column c df = true.
Proof. intros H Hi c Hc. apply (has_schema_column df c H). apply Hi. exact Hc. Qed.

Ltac schema_column H :=
  apply (has_schema_column _ _ H); simpl; tauto.

Lemma display_sorted (argsort : list Q -> list nat) (cs : list string) (f : DataFrame) :
  argsort_contract argsort ->
  (forall c, In c cs -> has_column c f = true) ->
  In "churn_probability" cs ->
  exists t,
    (v <- getitems cs f ;;
     sort_values argsort "churn_probability" churn_probability false v) = Ok t /\
    columns t = cs /\
    Permutation (rows t) (rows f) /\
    sorted_descending churn_probability (rows t).
Proof.
  intros Ha Hcs Hin. rewrite (getitems_ok cs f Hcs). simpl.
  destruct (sort_values_descending argsort Ha "churn_probability" churn_probability
              {| columns := cs; rows := rows f |}) as (rs & Hs & Hp & Hd).
  { apply has_column_In. exact Hin. }
  exists {| columns := cs; rows := rs |}. simpl in *. auto.
Qed.

Lemma filtered_data_ok (sel : string) (data : DataFrame) :
  has_column "risk_level" data = true ->
  exists f, Tab3.filtered_data sel data = Ok f /\ columns f = columns data /\
            incl (rows f) (rows data).
Proof.
  intros Hr. destruct (string_dec sel "All") as [->|Hsel].
  - exists data. split; [reflexivity|]. split; [reflexivity|]. apply incl_refl.
  - eexists. split; [apply (filtered_data_label sel data Hsel Hr)|].
    split; [reflexivity|]. simpl. intros r Hin. apply filter_In in Hin. tauto.
Qed.

Lemma same_columns (f data : DataFrame) (c : string) :
  columns f = columns data -> has_column c f = has_column c data.
Proof. unfold has_column. intros ->. reflexivity. Qed.

(** C5.  With the selector "All" the filter returns the input frame: the
    same rows, hence the same row count and the same row set.  The table then
    displayed is a rearrangement of these rows, whatever admissible [argsort]
    the sort uses. *)
Theorem C5_risk_filter_all (data : DataFrame) :
  exists f,
    Tab3.filtered_data "All" data = Ok f /\
    rows f = rows data /\
    List.length (rows f) = List.length (rows data) /\
    (forall r, In r (rows f) <-> In r (rows data)) /\
    (forall argsort,
       argsort_contract argsort -> has_schema data ->
       exists t, Tab3.table argsort "All" data = Ok t /\
                 Permutation (rows t) (rows data)).
Proof.
  exists data. split; [apply filtered_data_all|].
  split; [reflexivity|]. split; [reflexivity|]. split; [tauto|].
  intros argsort Ha Hs. unfold Tab3.table. rewrite filtered_data_all. simpl.
  destruct (display_sorted argsort
              ["customer_id"; "segment"; "clv_proxy"; "churn_probability"; "risk_level"]
              data Ha) as (t & Ht & _ & Hp & _).
  - apply (has_schema_columns data _ Hs). unfold schema. intros c Hc. simpl in *. tauto.
  - simpl. tauto.
  - exists t. split; assumption.
Qed.

Lemma C5_risk_filter_all_witness :
  exists f t,
    Tab3.filtered_data "All" scenario = Ok f /\
    rows f = rows scenario /\
    Tab3.table argsort_stable "All" scenario = Ok t /\
    Permutation (rows t) (rows scenario).
Proof.
  destruct (C5_risk_filter_all scenario) as (f & Hf & Hr & _ & _ & Ht).
  destruct (Ht argsort_stable argsort_stable_contract eq_refl) as (t & Ht' & Hp).
  exists f, t. auto.
Defined.

(** C6, as the code has it.  For every admissible [argsort], whatever
    float64 returns for the midpoint of two cells, every selector and every
    frame with the schema's columns, the risk table and the priority table are
    produced, each holds exactly the rows of its filter (a permutation of
    them) and each is sorted by [churn_probability] descending, rows without
    a probability last.  The order among rows of equal probability is the one
    [argsort] yields; nothing more is guaranteed. *)
Theorem C6_tables_sorted_descending
    (argsort : list Q -> list nat) (mid : Q -> Q -> xfloat)
    (sel : string) (data : DataFrame) :
  argsort_contract argsort ->
  has_schema data ->
  exists f p t3 t4,
    Tab3.filtered_data sel data = Ok f /\
    Rounded.priority_customers mid data = Ok p /\
    Tab3.table argsort sel data = Ok t3 /\
    Rounded.table mid argsort data = Ok t4 /\
    Permutation (rows t3) (rows f) /\
    sorted_descending churn_probability (rows t3) /\
    Permutation (rows t4) (rows p) /\
    sorted_descending churn_probability (rows t4).
Proof.
  intros Ha Hs.
  assert (Hr : has_column "risk_level" data = true) by schema_column Hs.
  assert (Hc : has_column "clv_proxy" data = true) by schema_column Hs.
  destruct (filtered_data_ok sel data Hr) as (f & Hf & Hcf & _).
  pose proof (rounded_priority_customers_rows mid data Hr Hc) as Hp.
  set (p := {| columns := columns data;
               rows := filter (fun r => has_label risk_level "High Risk" r &&
                                        xgt (clv_proxy r)
                                            (Rounded.median mid (map clv_proxy (rows data))))
                              (rows data) |}) in Hp.
  destruct (display_sorted argsort
              ["customer_id"; "segment"; "clv_proxy"; "churn_probability"; "risk_level"]
              f Ha) as (t3 & Ht3 & _ & Hp3 & Hd3).
  { intros c Hc'. rewrite (same_columns f data c Hcf).
    apply (has_schema_column data c Hs). simpl in *. tauto. }
  { simpl. tauto. }
  destruct (display_sorted argsort
              ["customer_id"; "segment"; "clv_proxy"; "churn_probability"]
              p Ha) as (t4 & Ht4 & _ & Hp4 & Hd4).
  { intros c Hc'. rewrite (same_columns p data c eq_refl).
    apply (has_schema_column data c Hs). simpl in *. tauto. }
  { simpl. tauto. }
  exists f, p, t3, t4.
  split; [exact Hf|]. split; [exact Hp|].
  split; [unfold Tab3.table; rewrite Hf; exact Ht3|].
  split; [unfold Rounded.table; rewrite Hp; exact Ht4|].
  auto.
Qed.

Lemma C6_tables_sorted_descending_witness :
  exists f p t3 t4,
    Tab3.filtered_data "High Risk" ties = Ok f /\
    Rounded.priority_customers exact_mid ties = Ok p /\
    Tab3.table argsort_stable "High Risk" ties = Ok t3 /\
    Rounded.table exact_mid argsort_stable ties = Ok t4 /\
    Permutation (rows t3) (rows f) /\
    sorted_descending churn_probability (rows t3) /\
    Permutation (rows t4) (rows p) /\
    sorted_descending churn_probability (rows t4).
Proof.
  apply (C6_tables_sorted_descending argsort_stable exact_mid "High Risk" ties).
  - exact argsort_stable_contract.
  - reflexivity.
Defined.

(** C6, the claim as stated, fails.  On the table [crowd] the "High Risk"
    selection and the priority subset are the first twenty rows, in table
    order.  Sorted by numpy's quicksort on positions, both tables come out
    in descending order of [churn_probability], but the rows of equal
    probability do not keep the order they had in the table. *)
Lemma C6_counterexample :
  has_schema crowd /\
  (exists f t3,
     Tab3.filtered_data "High Risk" crowd = Ok f /\
     rows f = map crowd_row (seq 0 20) /\
     Tab3.table aquicksort "High Risk" crowd = Ok t3 /\
     sorted_descending churn_probability (rows t3) /\
     ~ ties_keep_order churn_probability (rows f) (rows t3)) /\
  (forall mid, exists p t4,
     Rounded.priority_customers mid crowd = Ok p /\
     rows p = map crowd_row (seq 0 20) /\
     Rounded.table mid aquicksort crowd = Ok t4 /\
     sorted_descending churn_probability (rows t4) /\
     ~ ties_keep_order churn_probability (rows p) (rows t4)).
Proof.
  set (order := [2; 17; 5; 14; 8; 11; 10; 1; 16; 13; 19; 7; 4; 9; 12; 6; 15; 3; 18; 0]).
  assert (Hd : sorted_descending churn_probability (map crowd_row order)).
  { unfold sorted_descending, order.
    repeat first [apply SSorted_nil | apply SSorted_cons
                 | apply Forall_nil | apply Forall_cons
                 | (vm_compute; discriminate)]. }
  assert (Hn : ~ ties_keep_order churn_probability
                 (map crowd_row (seq 0 20)) (map crowd_row order)).
  { intros H. specialize (H (Fin (9 # 10))). vm_compute in H. discriminate H. }
  split; [reflexivity|]. split.
  - exists (mkFrame schema (map crowd_row (seq 0 20))),
           (mkFrame ["customer_id"; "segment"; "clv_proxy"; "churn_probability";
                     "risk_level"] (map crowd_row order)).
    split; [vm_compute; reflexivity|]. split; [reflexivity|].
    split; [vm_compute; reflexivity|]. split; [exact Hd|exact Hn].
  - intros mid.
    exists (mkFrame schema (map crowd_row (seq 0 20))),
           (mkFrame ["customer_id"; "segment"; "clv_proxy"; "churn_probability"]
                    (map crowd_row order)).
    split; [vm_compute; reflexivity|]. split; [reflexivity|].
    split; [vm_compute; reflexivity|]. split; [exact Hd|exact Hn].
Qed.

(** C7, the claim as stated, fails: a selector value outside the four options
    is compared with the labels like any other value, and on the scenario
    table no row is returned, not the full table. *)
Lemma C7_counterexample :
  ~ In "Very High Risk" Tab3.options /\
  Tab3.filtered_data "Very High Risk" scenario = Ok (mkFrame schema []) /\
  Tab3.filtered_data "All" scenario = Ok scenario /\
  Tab3.filtered_data "Very High Risk" scenario <> Ok scenario.
Proof.
  split.
  - simpl. intros H. repeat (destruct H as [H|H]; [discriminate H|]). exact H.
  - split; [reflexivity|]. split; [reflexivity|]. discriminate.
Qed.

(** C7, as the code has it.  The selectbox yields one of its four options and
    nothing else, so a value outside them never reaches the filter.  The
    filter has no fallback of its own: for every selector value other than
    "All", inside or outside the options, it returns the rows whose
    [risk_level] is that value, and no row at all when no row carries it. *)
Theorem C7_selector_closed :
  (forall pick sel, Tab3.risk_filter pick = Some sel ->
     In sel ["All"; "High Risk"; "Medium Risk"; "Low Risk"]) /\
  (forall data sel,
     sel <> "All" ->
     has_column "risk_level" data = true ->
     exists f,
       Tab3.filtered_data sel data = Ok f /\
       columns f = columns data /\
       rows f = filter (has_label risk_level sel) (rows data) /\
       (forall r, In r (rows f) <-> In r (rows data) /\ risk_level r = Some sel) /\
       ((forall r, In r (rows data) -> risk_level r <> Some sel) -> rows f = [])).
Proof.
  split.
  - intros pick sel H. unfold Tab3.risk_filter, Tab3.selectbox in H.
    apply nth_error_In in H. exact H.
  - intros data sel Hsel Hr.
    exists {| columns := columns data;
              rows := filter (has_label risk_level sel) (rows data) |}.
    split; [apply filtered_data_label; assumption|].
    split; [reflexivity|]. split; [reflexivity|]. simpl.
    split; [intros r; rewrite filter_In, has_label_iff; tauto|].
    intros Hnone.
    destruct (filter (has_label risk_level sel) (rows data)) as [|r rs] eqn:E;
      [reflexivity|].
    assert (Hin : In r (filter (has_label risk_level sel) (rows data)))
      by (rewrite E; left; reflexivity).
    apply filter_In in Hin. destruct Hin as [Hin Hl].
    apply has_label_iff in Hl. exfalso. exact (Hnone r Hin Hl).
Qed.

Lemma C7_selector_closed_witness :
  In "Low Risk" ["All"; "High Risk"; "Medium Risk"; "Low Risk"] /\
  exists f,
    Tab3.filtered_data "high risk" scenario = Ok f /\
    rows f = filter (has_label risk_level "high risk") (rows scenario) /\
    rows f = [].
Proof.
  destruct C7_selector_closed as [Hpick Hfilter].
  split; [exact (Hpick 3 "Low Risk" eq_refl)|].
  destruct (Hfilter scenario "high risk") as (f & Hf & _ & Hrows & _ & Hnone).
  - discriminate.
  - reflexivity.
  - exists f. split; [exact Hf|]. split; [exact Hrows|].
    apply Hnone. intros r Hin. simpl in Hin.
    repeat (destruct Hin as [<-|Hin]; [discriminate|]). destruct Hin.
Defined.

(** ** The loader *)

(** C8, the claim as stated, fails: a file that parses to a frame without
    the [customer_id] column is loaded like any other; [load_data] raises
    nothing and returns the frame. *)
Lemma C8_counterexample :
  let df := mkFrame ["segment"; "clv_proxy"; "churn_probability";
                     "risk_level"; "actual_churn"] [row_A; row_B] in
  let fs := (fun _ : string => Csv df) in
  has_column "customer_id" df = false /\
  load_data fs = Ok df /\
  ~ raises (load_data fs).
Proof.
  simpl. split; [reflexivity|]. split; [reflexivity|]. unfold load_data, read_csv.
  simpl. tauto.
Qed.

(** C8, as the code has it.  [load_data] raises exactly when the file is
    missing or does not parse.  A file that parses is returned as it is,
    whatever its header: the schema is not checked, and no error is raised
    for an absent column at load time. *)
Theorem C8_load_data (fs : filesystem) :
  (raises (load_data fs) <->
     fs "data/processed/dashboard_data.csv" = NoFile \/
     fs "data/processed/dashboard_data.csv" = Unparsable) /\
  (forall df, fs "data/processed/dashboard_data.csv" = Csv df ->
     load_data fs = Ok df /\ ~ raises (load_data fs)).
Proof.
  split.
  - unfold load_data, read_csv.
    destruct (fs "data/processed/dashboard_data.csv"); simpl.
    + tauto.
    + tauto.
    + split; [tauto|]. intros [H|H]; discriminate H.
  - intros df Hfs. unfold load_data, read_csv. rewrite Hfs.
    split; [reflexivity|]. simpl. tauto.
Qed.

Lemma C8_load_data_witness :
  let df := mkFrame ["customer_id"; "clv_proxy"; "churn_probability";
                     "risk_level"; "actual_churn"] [row_A; row_B] in
  raises (load_data (fun _ => NoFile)) /\
  has_column "segment" df = false /\
  load_data (fun _ => Csv df) = Ok df.
Proof.
  intros df. split; [|split].
  - apply (proj1 (C8_load_data (fun _ => NoFile))). left. reflexivity.
  - reflexivity.
  - apply (proj2 (C8_load_data (fun _ => Csv df)) df eq_refl).
Defined.

(** ** Tab 1: the headline metrics *)

(** C3, the claim as stated, fails: on a table with the schema's columns and
    no row the headline computation raises nothing; it returns 0 customers
    and NaN for the three means, which the tiles show as "nan". *)
Lemma C3_counterexample :
  ~ raises (Tab1.metrics (mkFrame schema [])) /\
  Tab1.metrics (mkFrame schema []) = Ok (Tab1.mkMetrics 0 "nan" "nan" "nan") /\
  Tab1.churn_rate (mkFrame schema []) = Ok NaN /\
  Tab1.high_risk_pct (mkFrame schema []) = Ok NaN /\
  Tab1.avg_clv (mkFrame schema []) = Ok NaN.
Proof.
  split; [simpl; tauto|]. repeat split.
Qed.

(** C3, as the code has it.  On every frame that has the schema's columns
    and no row, the headline computation succeeds: [total_customers] is 0,
    [churn_rate], [high_risk_pct] and [avg_clv] are NaN, and the tiles show
    0, "nan", "nan" and "nan".  No error is raised. *)
Theorem C3_empty_table (data : DataFrame) :
  has_schema data ->
  rows data = [] ->
  Tab1.total_customers data = Ok 0 /\
  Tab1.churn_rate data = Ok NaN /\
  Tab1.high_risk_pct data = Ok NaN /\
  Tab1.avg_clv data = Ok NaN /\
  Tab1.metrics data = Ok (Tab1.mkMetrics 0 "nan" "nan" "nan") /\
  ~ raises (Tab1.metrics data).
Proof.
  intros Hs He.
  assert (H1 : has_column "customer_id" data = true) by schema_column Hs.
  assert (H2 : has_column "actual_churn" data = true) by schema_column Hs.
  assert (H3 : has_column "risk_level" data = true) by schema_column Hs.
  assert (H4 : has_column "clv_proxy" data = true) by schema_column Hs.
  unfold Tab1.metrics, Tab1.total_customers, Tab1.churn_rate, Tab1.high_risk_pct,
    Tab1.avg_clv.
  rewrite (getitem_ok _ _ _ H1), (getitem_ok _ _ _ H2), (getitem_ok _ _ _ H3),
    (getitem_ok _ _ _ H4), He.
  simpl. repeat split. tauto.
Qed.

Lemma C3_empty_table_witness :
  Tab1.total_customers (mkFrame schema []) = Ok 0 /\
  Tab1.churn_rate (mkFrame schema []) = Ok NaN /\
  Tab1.high_risk_pct (mkFrame schema []) = Ok NaN /\
  Tab1.avg_clv (mkFrame schema []) = Ok NaN /\
  Tab1.metrics (mkFrame schema []) = Ok (Tab1.mkMetrics 0 "nan" "nan" "nan") /\
  ~ raises (Tab1.metrics (mkFrame schema [])).
Proof.
  apply (C3_empty_table (mkFrame schema [])); reflexivity.
Defined.

Lemma dropna_present (vals : list Q) : dropna (map Fin vals) = vals.
Proof.
  induction vals as [|q vals IH]; simpl; [reflexivity|]. rewrite IH. reflexivity.
Qed.

Lemma mean_present (vals : list Q) :
  vals <> [] ->
  mean (map Fin vals) = Fin (Qsum vals / Qlen (List.length vals)).
Proof.
  intros Hne. unfold mean. rewrite dropna_present.
  destruct vals; [congruence|reflexivity].
Qed.

Lemma mean_empty : mean [] = NaN.
Proof. reflexivity. Qed.

Lemma as_float_present (m : list bool) :
  as_float m = map Fin (map (fun b : bool => if b then 1%Q else 0%Q) m).
Proof.
  unfold as_float. rewrite map_map. apply map_ext. intros [|]; reflexivity.
Qed.

Lemma Qlen_S (n : nat) : (Qlen (S n) == 1 + Qlen n)%Q.
Proof.
  unfold Qlen. rewrite Nat2Z.inj_succ, <- Z.add_1_l, inject_Z_plus. reflexivity.
Qed.

Lemma Qsum_indicator {A} (f : A -> bool) (l : list A) :
  (Qsum (map (fun b : bool => if b then 1 else 0) (map f l)) ==
   Qlen (List.length (filter f l)))%Q.
Proof.
  induction l as [|x l IH]; simpl.
  - reflexivity.
  - destruct (f x); simpl.
    + rewrite Qlen_S, IH. reflexivity.
    + rewrite IH. ring.
Qed.

(** The rows of a frame as the distinct identifiers see them. *)
Lemma nunique_spec (s : list (option string)) :
  exists ids,
    NoDup ids /\
    (forall x, In x ids <-> In (Some x) s) /\
    nunique s = List.length ids.
Proof.
  exists (nodup string_dec (dropnone s)). split; [apply NoDup_nodup|].
  split; [|reflexivity].
  intros x. rewrite nodup_In. apply In_dropnone.
Qed.

Lemma In_column {A} (proj : Row -> A) (rs : list Row) (x : A) :
  In x (map proj rs) <-> exists r, In r rs /\ proj r = x.
Proof.
  rewrite in_map_iff. split; intros (r & H1 & H2); exists r; tauto.
Qed.

Lemma nodup_length_le {A} (dec : forall x y : A, {x = y} + {x <> y}) (l : list A) :
  List.length (nodup dec l) <= List.length l.
Proof.
  induction l as [|x l IH]; simpl; [lia|].
  destruct (in_dec dec x l); simpl; lia.
Qed.

Lemma dropnone_length_le (s : list (option string)) :
  List.length (dropnone s) <= List.length s.
Proof.
  induction s as [|[v|] s IH]; simpl; lia.
Qed.

Lemma nunique_le (s : list (option string)) : nunique s <= List.length s.
Proof.
  unfold nunique.
  pose proof (nodup_length_le string_dec (dropnone s)).
  pose proof (dropnone_length_le s). lia.
Qed.

Lemma option_string_dec (x y : option string) : {x = y} + {x <> y}.
Proof. decide equality. apply string_dec. Qed.

Lemma nunique_lt (s : list (option string)) :
  ~ NoDup s -> nunique s < List.length s.
Proof.
  induction s as [|c s IH]; intros Hd.
  - exfalso. apply Hd. constructor.
  - pose proof (nunique_le s) as Hle.
    destruct (in_dec option_string_dec c s) as [Hin|Hout].
    + destruct c as [v|]; unfold nunique in *; simpl.
      * destruct (in_dec string_dec v (dropnone s)) as [Hv|Hv]; [lia|].
        exfalso. apply Hv. apply In_dropnone. exact Hin.
      * lia.
    + assert (Hs : ~ NoDup s) by (intros Hn; apply Hd; constructor; assumption).
      specialize (IH Hs).
      destruct c as [v|]; unfold nunique in *; simpl.
      * destruct (in_dec string_dec v (dropnone s)); simpl; lia.
      * lia.
Qed.

Lemma shared_not_NoDup {A} (l : list A) (i j : nat) (x : A) :
  i <> j -> nth_error l i = Some x -> nth_error l j = Some x -> ~ NoDup l.
Proof.
  intros Hij Hi Hj Hn. apply Hij.
  rewrite NoDup_nth_error in Hn. apply Hn.
  - apply nth_error_Some. congruence.
  - congruence.
Qed.

Lemma column_length {A B} (proj : Row -> A) (rs : list Row) (f : B -> A) (vals : list B) :
  map proj rs = map f vals -> List.length vals = List.length rs.
Proof.
  intros H. rewrite <- (length_map proj rs), H, length_map. reflexivity.
Qed.

Lemma total_customers_distinct (data : DataFrame) :
  has_column "customer_id" data = true ->
  exists ids,
    NoDup ids /\
    (forall x, In x ids <-> exists r, In r (rows data) /\ customer_id r = Some x) /\
    Tab1.total_customers data = Ok (List.length ids).
Proof.
  intros H1.
  destruct (nunique_spec (map customer_id (rows data))) as (ids & Hn & Hi & Hl).
  exists ids. split; [exact Hn|]. split.
  - intros x. rewrite Hi. apply In_column.
  - unfold Tab1.total_customers. rewrite (getitem_ok _ _ _ H1). simpl.
    rewrite Hl. reflexivity.
Qed.

Lemma churn_rate_mean (data : DataFrame) (churn : list Q) :
  has_column "actual_churn" data = true ->
  rows data <> [] ->
  map actual_churn (rows data) = map Fin churn ->
  Tab1.churn_rate data =
  Ok (Fin (Qsum churn / Qlen (List.length (rows data)) * 100)).
Proof.
  intros H Hne Hc. unfold Tab1.churn_rate. rewrite (getitem_ok _ _ _ H). simpl.
  rewrite Hc, mean_present.
  - rewrite (column_length _ _ _ _ Hc). reflexivity.
  - intros ->. destruct (rows data); [congruence|discriminate].
Qed.

Lemma avg_clv_mean (data : DataFrame) (clv : list Q) :
  has_column "clv_proxy" data = true ->
  rows data <> [] ->
  map clv_proxy (rows data) = map Fin clv ->
  Tab1.avg_clv data = Ok (Fin (Qsum clv / Qlen (List.length (rows data)))).
Proof.
  intros H Hne Hc. unfold Tab1.avg_clv. rewrite (getitem_ok _ _ _ H). simpl.
  rewrite Hc, mean_present.
  - rewrite (column_length _ _ _ _ Hc). reflexivity.
  - intros ->. destruct (rows data); [congruence|discriminate].
Qed.

Lemma high_risk_pct_proportion (data : DataFrame) :
  has_column "risk_level" data = true ->
  rows data <> [] ->
  exists high,
    Tab1.high_risk_pct data = Ok (Fin high) /\
    (high ==
     Qlen (List.length (filter (has_label risk_level "High Risk") (rows data))) /
     Qlen (List.length (rows data)) * 100)%Q.
Proof.
  intros H Hne. unfold Tab1.high_risk_pct. rewrite (getitem_ok _ _ _ H). simpl.
  rewrite eq_label_rows. fold (has_label risk_level "High Risk").
  rewrite as_float_present, mean_present.
  - eexists. split; [reflexivity|].
    rewrite Qsum_indicator, !length_map. reflexivity.
  - destruct (rows data); [congruence|discriminate].
Qed.

(** C2.  On a non-empty table whose [actual_churn] and [clv_proxy] cells are
    all present, [total_customers] is the number of distinct customer
    identifiers, [churn_rate] is 100 times the sum of [actual_churn] over the
    rows divided by the number of rows, [high_risk_pct] is 100 times the
    number of "High Risk" rows divided by the number of rows, and [avg_clv]
    is the sum of [clv_proxy] divided by the number of rows.  On the 4-row
    scenario the values are 4, 50, 50 and 95 and the tiles show 4, "50.00",
    "50.00" and "95.00". *)
Theorem C2_headline_aggregates :
  (forall data churn clv,
     has_schema data ->
     rows data <> [] ->
     map actual_churn (rows data) = map Fin churn ->
     map clv_proxy (rows data) = map Fin clv ->
     exists ids high,
       NoDup ids /\
       (forall x, In x ids <-> exists r, In r (rows data) /\ customer_id r = Some x) /\
       Tab1.total_customers data = Ok (List.length ids) /\
       Tab1.churn_rate data =
         Ok (Fin (Qsum churn / Qlen (List.length (rows data)) * 100)) /\
       Tab1.high_risk_pct data = Ok (Fin high) /\
       (high ==
        Qlen (List.length (filter (has_label risk_level "High Risk") (rows data))) /
        Qlen (List.length (rows data)) * 100)%Q /\
       Tab1.avg_clv data = Ok (Fin (Qsum clv / Qlen (List.length (rows data))))) /\
  (Tab1.total_customers scenario = Ok 4 /\
   (exists c, Tab1.churn_rate scenario = Ok c /\ feq c (Fin 50)) /\
   (exists h, Tab1.high_risk_pct scenario = Ok h /\ feq h (Fin 50)) /\
   (exists a, Tab1.avg_clv scenario = Ok a /\ feq a (Fin 95)) /\
   Tab1.metrics scenario = Ok (Tab1.mkMetrics 4 "50.00" "50.00" "95.00")).
Proof.
  split.
  - intros data churn clv Hs Hne Hchurn Hclv.
    assert (H1 : has_column "customer_id" data = true) by schema_column Hs.
    assert (H2 : has_column "actual_churn" data = true) by schema_column Hs.
    assert (H3 : has_column "risk_level" data = true) by schema_column Hs.
    assert (H4 : has_column "clv_proxy" data = true) by schema_column Hs.
    destruct (total_customers_distinct data H1) as (ids & Hn & Hi & Ht).
    destruct (high_risk_pct_proportion data H3 Hne) as (high & Hh & Hq).
    exists ids, high.
    split; [exact Hn|]. split; [exact Hi|]. split; [exact Ht|].
    split; [apply churn_rate_mean; assumption|].
    split; [exact Hh|]. split; [exact Hq|].
    apply avg_clv_mean; assumption.
  - split; [reflexivity|].
    split; [eexists; split; [reflexivity|reflexivity]|].
    split; [eexists; split; [reflexivity|reflexivity]|].
    split; [eexists; split; [reflexivity|reflexivity]|].
    reflexivity.
Qed.

Lemma C2_headline_aggregates_witness :
  exists ids high,
    NoDup ids /\
    (forall x, In x ids <-> exists r, In r (rows scenario) /\ customer_id r = Some x) /\
    Tab1.total_customers scenario = Ok (List.length ids) /\
    Tab1.churn_rate scenario = Ok (Fin (Qsum [1; 0; 1; 0]%Q / Qlen 4 * 100)) /\
    Tab1.high_risk_pct scenario = Ok (Fin high) /\
    (high ==
     Qlen (List.length (filter (has_label risk_level "High Risk") (rows scenario))) /
     Qlen 4 * 100)%Q /\
    Tab1.avg_clv scenario = Ok (Fin (Qsum [100; 50; 200; 30]%Q / Qlen 4)).
Proof.
  apply (proj1 C2_headline_aggregates scenario [1; 0; 1; 0]%Q [100; 50; 200; 30]%Q).
  - reflexivity.
  - discriminate.
  - reflexivity.
  - reflexivity.
Defined.

(** C10.  [total_customers] is the number of distinct customer identifiers
    of the table.  It never exceeds the row count and is strictly smaller as
    soon as two rows carry the same identifier.  The three other metrics
    divide by the number of rows, not by the number of customers: on a
    non-empty table without missing cells [churn_rate] and [avg_clv] are the
    sums over all rows divided by the row count, and [high_risk_pct] is the
    share of "High Risk" rows among all rows. *)
Theorem C10_total_customers_distinct (data : DataFrame) :
  has_schema data ->
  exists n ids,
    Tab1.total_customers data = Ok n /\
    NoDup ids /\
    (forall x, In x ids <-> exists r, In r (rows data) /\ customer_id r = Some x) /\
    n = List.length ids /\
    n <= List.length (rows data) /\
    (forall i j r1 r2,
       i <> j ->
       nth_error (rows data) i = Some r1 ->
       nth_error (rows data) j = Some r2 ->
       customer_id r1 = customer_id r2 ->
       n < List.length (rows data)) /\
    (forall churn clv,
       rows data <> [] ->
       map actual_churn (rows data) = map Fin churn ->
       map clv_proxy (rows data) = map Fin clv ->
       Tab1.churn_rate data =
         Ok (Fin (Qsum churn / Qlen (List.length (rows data)) * 100)) /\
       Tab1.avg_clv data = Ok (Fin (Qsum clv / Qlen (List.length (rows data)))) /\
       exists high,
         Tab1.high_risk_pct data = Ok (Fin high) /\
         (high ==
          Qlen (List.length (filter (has_label risk_level "High Risk") (rows data))) /
          Qlen (List.length (rows data)) * 100)%Q).
Proof.
  intros Hs.
  assert (H1 : has_column "customer_id" data = true) by schema_column Hs.
  assert (H2 : has_column "actual_churn" data = true) by schema_column Hs.
  assert (H3 : has_column "risk_level" data = true) by schema_column Hs.
  assert (H4 : has_column "clv_proxy" data = true) by schema_column Hs.
  destruct (total_customers_distinct data H1) as (ids & Hn & Hi & Ht).
  assert (Hl : List.length ids = nunique (map customer_id (rows data))).
  { unfold Tab1.total_customers in Ht. rewrite (getitem_ok _ _ _ H1) in Ht.
    simpl in Ht. congruence. }
  exists (List.length ids), ids.
  split; [exact Ht|]. split; [exact Hn|]. split; [exact Hi|]. split; [reflexivity|].
  split; [|split].
  - rewrite Hl, <- (length_map customer_id (rows data)). apply nunique_le.
  - intros i j r1 r2 Hij Hr1 Hr2 Heq.
    rewrite Hl, <- (length_map customer_id (rows data)). apply nunique_lt.
    apply (shared_not_NoDup _ i j (customer_id r1) Hij).
    + apply map_nth_error. exact Hr1.
    + rewrite Heq. apply map_nth_error. exact Hr2.
  - intros churn clv Hne Hchurn Hclv.
    split; [apply churn_rate_mean; assumption|].
    split; [apply avg_clv_mean; assumption|].
    apply high_risk_pct_proportion; assumption.
Qed.

Lemma C10_total_customers_distinct_witness :
  exists n,
    Tab1.total_customers repeated = Ok n /\
    n < List.length (rows repeated) /\
    Tab1.churn_rate repeated = Ok (Fin (Qsum [1; 0; 0]%Q / Qlen 3 * 100)) /\
    Tab1.avg_clv repeated = Ok (Fin (Qsum [100; 50; 20]%Q / Qlen 3)).
Proof.
  destruct (C10_total_customers_distinct repeated eq_refl)
    as (n & ids & Ht & _ & _ & _ & _ & Hlt & Hmean).
  exists n. split; [exact Ht|]. split.
  - apply (Hlt 0 2 row_A row_A2); [discriminate|reflexivity|reflexivity|reflexivity].
  - destruct (Hmean [1; 0; 0]%Q [100; 50; 20]%Q) as (Hc & Ha & _).
    + discriminate.
    + reflexivity.
    + reflexivity.
    + split; [exact Hc|exact Ha].
Defined.

(** ** Tab 2: the segment summary *)

Section GroupKeys.
Variable key_sort : list string -> list string.
Hypothesis key_sort_perm : forall l, Permutation (key_sort l) l.

Lemma group_keys_NoDup (rs : list Row) : NoDup (Tab2.group_keys key_sort rs).
Proof.
  unfold Tab2.group_keys.
  apply (Permutation_NoDup (Permutation_sym (key_sort_perm _))).
  apply NoDup_nodup.
Qed.

Lemma group_keys_In (rs : list Row) (k : string) :
  In k (Tab2.group_keys key_sort rs) <-> exists r, In r rs /\ segment r = Some k.
Proof.
  unfold Tab2.group_keys. split.
  - intros H. apply (Permutation_in _ (key_sort_perm _)) in H.
    apply nodup_In, In_dropnone, In_column in H. exact H.
  - intros H. apply (Permutation_in _ (Permutation_sym (key_sort_perm _))).
    apply nodup_In, In_dropnone, In_column. exact H.
Qed.
End GroupKeys.

Lemma text_sort_perm (l : list string) : Permutation (text_sort l) l.
Proof. apply isort_perm. Qed.

Lemma summary_labels (rs : list Row) (ks : list string) :
  map Tab2.segment_label (map (Tab2.aggregate rs) ks) = ks.
Proof.
  rewrite map_map. simpl. apply map_id.
Qed.

Lemma dropnone_all_present (proj : Row -> option string) (rs : list Row) :
  (forall r, In r rs -> proj r <> None) ->
  List.length (dropnone (map proj rs)) = List.length rs.
Proof.
  induction rs as [|r rs IH]; intros H; simpl; [reflexivity|].
  destruct (proj r) as [v|] eqn:E.
  - simpl. rewrite IH; [reflexivity|]. intros r' Hr'. apply H. right. exact Hr'.
  - exfalso. apply (H r (or_introl eq_refl)). exact E.
Qed.

(** ["count"] counts the rows whose cell is present. *)
Lemma count_present (proj : Row -> option string) (rs : list Row) :
  List.length (dropnone (map proj rs)) =
  List.length (filter (fun r => notna (proj r)) rs).
Proof.
  induction rs as [|r rs IH]; simpl; [reflexivity|].
  destruct (proj r); simpl; rewrite IH; reflexivity.
Qed.

Lemma map_Fin_inj (l1 l2 : list Q) : map Fin l1 = map Fin l2 -> l1 = l2.
Proof.
  revert l2. induction l1 as [|x l1 IH]; intros [|y l2] H; simpl in H;
    try discriminate; [reflexivity|].
  injection H as -> H. rewrite (IH _ H). reflexivity.
Qed.

(** ["mean"] is the sum of the present cells divided by their number. *)
Lemma mean_spec (s : list float) (vals : list Q) :
  filter (fun x => negb (isna x)) s = map Fin vals ->
  mean s = match vals with
           | [] => NaN
           | _ => Fin (Qsum vals / Qlen (List.length vals))
           end.
Proof.
  rewrite filter_present. intros H. apply map_Fin_inj in H.
  unfold mean. rewrite H. destruct vals; reflexivity.
Qed.

(** A label counts once among keys without repetition. *)
Lemma indicator_sum (x : string) (ks : list string) :
  NoDup ks -> In x ks ->
  list_sum (map (fun k => if String.eqb x k then 1 else 0) ks) = 1.
Proof.
  induction 1 as [|k ks Hk Hn IH]; intros Hin; simpl.
  - destruct Hin.
  - destruct (String.eqb x k) eqn:E.
    + apply String.eqb_eq in E. subst k.
      assert (Z : list_sum (map (fun k => if String.eqb x k then 1 else 0) ks) = 0).
      { clear IH Hin Hn. induction ks as [|k ks IH]; simpl; [reflexivity|].
        destruct (String.eqb x k) eqn:E.
        - apply String.eqb_eq in E. subst k. exfalso. apply Hk. left. reflexivity.
        - apply IH. intros H. apply Hk. right. exact H. }
      rewrite Z. reflexivity.
    + apply String.eqb_neq in E. destruct Hin as [->|Hin]; [congruence|].
      rewrite (IH Hin). reflexivity.
Qed.

Lemma list_sum_plus {A} (f g : A -> nat) (l : list A) :
  list_sum (map (fun k => f k + g k) l) = list_sum (map f l) + list_sum (map g l).
Proof.
  induction l as [|x l IH]; simpl; [reflexivity|]. rewrite IH. lia.
Qed.

Lemma list_sum_zero {A} (l : list A) : list_sum (map (fun _ => 0) l) = 0.
Proof. induction l as [|x l IH]; simpl; [reflexivity|exact IH]. Qed.

(** The groups of keys without repetition that hold every label of the rows
    split the labelled rows, also when only the rows passing a test [q] are
    counted in each group. *)
Lemma groups_cover (q : Row -> bool) (ks : list string) (rs : list Row) :
  NoDup ks ->
  (forall r k, In r rs -> segment r = Some k -> In k ks) ->
  list_sum (map (fun k => List.length (filter q (filter (has_label segment k) rs))) ks) =
  List.length (filter (fun r => notna (segment r) && q r) rs).
Proof.
  intros Hn. induction rs as [|r rs IH]; intros Hc.
  - simpl. apply list_sum_zero.
  - assert (IH' : list_sum
                    (map (fun k => List.length
                                     (filter q (filter (has_label segment k) rs))) ks) =
                  List.length (filter (fun r => notna (segment r) && q r) rs)).
    { apply IH. intros r' k Hr'. apply Hc. right. exact Hr'. }
    destruct (segment r) as [k0|] eqn:Hseg.
    + assert (E : map (fun k => List.length
                                  (filter q (filter (has_label segment k) (r :: rs)))) ks =
                  map (fun k => (if String.eqb k0 k then (if q r then 1 else 0) else 0) +
                                List.length
                                  (filter q (filter (has_label segment k) rs))) ks).
      { apply map_ext. intros k. simpl. unfold has_label at 1. rewrite Hseg.
        destruct (String.eqb k0 k); [simpl; destruct (q r)|]; reflexivity. }
      rewrite E, list_sum_plus, IH'. simpl. rewrite Hseg. simpl.
      destruct (q r); simpl.
      * rewrite (indicator_sum k0 ks Hn); [reflexivity|].
        apply (Hc r k0); [left; reflexivity|exact Hseg].
      * rewrite (map_ext _ (fun _ => 0)) by (intros k; destruct (String.eqb k0 k); reflexivity).
        rewrite list_sum_zero. reflexivity.
    + assert (E : map (fun k => List.length
                                  (filter q (filter (has_label segment k) (r :: rs)))) ks =
                  map (fun k => List.length
                                  (filter q (filter (has_label segment k) rs))) ks).
      { apply map_ext. intros k. simpl. unfold has_label at 1. rewrite Hseg.
        reflexivity. }
      rewrite E, IH'. simpl. rewrite Hseg. reflexivity.
Qed.

Lemma filter_true {A} (f : A -> bool) (l : list A) :
  (forall x, In x l -> f x = true) -> filter f l = l.
Proof.
  induction l as [|x l IH]; intros H; simpl; [reflexivity|].
  rewrite (H x (or_introl eq_refl)), IH; [reflexivity|].
  intros y Hy. apply H. right. exact Hy.
Qed.

(** C9, the claim as stated, fails.  The table [anonymous] has two rows of
    segment "S1", one of them without a customer identifier.  ["count"]
    skips the empty cell: the one group records 1 customer and the counts add
    up to 1, not to the row count 2. *)
Lemma C9_counterexample :
  has_schema anonymous /\
  List.length (rows anonymous) = 2 /\
  (forall r, In r (rows anonymous) -> segment r = Some "S1") /\
  exists g,
    Tab2.segment_summary text_sort anonymous = Ok [g] /\
    Tab2.segment_label g = "S1" /\
    Tab2.customers g = 1 /\
    list_sum (map Tab2.customers [g]) <> List.length (rows anonymous).
Proof.
  split; [reflexivity|]. split; [reflexivity|]. split.
  - intros r [<-|[<-|[]]]; reflexivity.
  - eexists. split; [reflexivity|]. split; [reflexivity|]. split; [reflexivity|].
    simpl. discriminate.
Qed.

(** C9, as the code has it.  On a frame with the schema's columns, in
    whatever order the group keys are sorted, the summary has one row per
    distinct segment label of the table, none twice.  The row of a label
    records the number of the rows of that segment whose customer identifier
    is present, and for [clv_proxy] and for [actual_churn] the sum of the
    present cells of these rows divided by their number (NaN when none is
    present).  Rows without a segment label belong to no group.  The counts
    add up to the number of rows that have both a label and an identifier,
    which is the row count of the table when no such cell is empty. *)
Theorem C9_segment_summary
    (key_sort : list string -> list string) (data : DataFrame) :
  (forall l, Permutation (key_sort l) l) ->
  has_schema data ->
  exists ss,
    Tab2.segment_summary key_sort data = Ok ss /\
    NoDup (map Tab2.segment_label ss) /\
    (forall k, In k (map Tab2.segment_label ss) <->
               exists r, In r (rows data) /\ segment r = Some k) /\
    (forall g, In g ss ->
       let members := filter (has_label segment (Tab2.segment_label g)) (rows data) in
       members <> [] /\
       Tab2.customers g =
         List.length (filter (fun r => notna (customer_id r)) members) /\
       (forall clv,
          filter (fun x => negb (isna x)) (map clv_proxy members) = map Fin clv ->
          Tab2.avg_clv g = match clv with
                           | [] => NaN
                           | _ => Fin (Qsum clv / Qlen (List.length clv))
                           end) /\
       (forall churn,
          filter (fun x => negb (isna x)) (map actual_churn members) = map Fin churn ->
          Tab2.churn_rate g = match churn with
                              | [] => NaN
                              | _ => Fin (Qsum churn / Qlen (List.length churn))
                              end)) /\
    list_sum (map Tab2.customers ss) =
      List.length (filter (fun r => notna (segment r) && notna (customer_id r))
                          (rows data)) /\
    ((forall r, In r (rows data) -> segment r <> None /\ customer_id r <> None) ->
     list_sum (map Tab2.customers ss) = List.length (rows data)).
Proof.
  intros Hperm Hs.
  exists (map (Tab2.aggregate (rows data)) (Tab2.group_keys key_sort (rows data))).
  assert (Hsum : list_sum (map Tab2.customers
                   (map (Tab2.aggregate (rows data))
                        (Tab2.group_keys key_sort (rows data)))) =
                 List.length (filter (fun r => notna (segment r) && notna (customer_id r))
                                     (rows data))).
  { rewrite map_map. simpl.
    rewrite (map_ext _ _ (fun k => count_present customer_id
                                     (filter (has_label segment k) (rows data)))).
    apply groups_cover; [apply group_keys_NoDup; exact Hperm|].
    intros r k Hr Hseg. apply (group_keys_In key_sort Hperm). exists r. tauto. }
  split; [|split; [|split; [|split; [|split]]]].
  - unfold Tab2.segment_summary. rewrite check_columns_ok; [reflexivity|].
    apply (has_schema_columns data _ Hs). intros c Hc. simpl in *. tauto.
  - rewrite summary_labels. apply group_keys_NoDup. exact Hperm.
  - intros k. rewrite summary_labels. apply group_keys_In. exact Hperm.
  - intros g Hg. apply in_map_iff in Hg. destruct Hg as (k & <- & Hk). simpl.
    split; [|split; [apply count_present|split; intros vals Hv; apply mean_spec; exact Hv]].
    apply (group_keys_In key_sort Hperm) in Hk. destruct Hk as (r & Hr & Hseg).
    intros E.
    assert (Hin : In r (filter (has_label segment k) (rows data))).
    { apply filter_In. split; [exact Hr|]. apply has_label_iff. exact Hseg. }
    rewrite E in Hin. destruct Hin.
  - exact Hsum.
  - intros Hpresent. rewrite Hsum. f_equal. apply filter_true.
    intros r Hr. destruct (Hpresent r Hr) as [H1 H2].
    destruct (segment r); [|congruence]. destruct (customer_id r); [|congruence].
    reflexivity.
Qed.

Lemma C9_segment_summary_witness :
  exists ss,
    Tab2.segment_summary text_sort scenario = Ok ss /\
    NoDup (map Tab2.segment_label ss) /\
    (forall k, In k (map Tab2.segment_label ss) <->
               exists r, In r (rows scenario) /\ segment r = Some k) /\
    (forall g, In g ss ->
       let members := filter (has_label segment (Tab2.segment_label g)) (rows scenario) in
       members <> [] /\
       Tab2.customers g =
         List.length (filter (fun r => notna (customer_id r)) members) /\
       (forall clv,
          filter (fun x => negb (isna x)) (map clv_proxy members) = map Fin clv ->
          Tab2.avg_clv g = match clv with
                           | [] => NaN
                           | _ => Fin (Qsum clv / Qlen (List.length clv))
                           end) /\
       (forall churn,
          filter (fun x => negb (isna x)) (map actual_churn members) = map Fin churn ->
          Tab2.churn_rate g = match churn with
                              | [] => NaN
                              | _ => Fin (Qsum churn / Qlen (List.length churn))
                              end)) /\
    list_sum (map Tab2.customers ss) =
      List.length (filter (fun r => notna (segment r) && notna (customer_id r))
                          (rows scenario)) /\
    ((forall r, In r (rows scenario) -> segment r <> None /\ customer_id r <> None) ->
     list_sum (map Tab2.customers ss) = List.length (rows scenario)).
Proof.
  apply (C9_segment_summary text_sort scenario).
  - intros l. apply isort_perm.
  - reflexivity.
Defined.

(** Without the segment cell a row belongs to no group: the counts of the
    summary then add up to less than the number of rows. *)
Example summary_skips_unlabelled :
  exists ss,
    Tab2.segment_summary text_sort unlabelled = Ok ss /\
    map Tab2.segment_label ss = ["S1"] /\
    list_sum (map Tab2.customers ss) = 1 /\
    List.length (rows unlabelled) = 2.
Proof. eexists. repeat split. Qed.

(** ** The scenario, view by view *)

Example scenario_segment_summary :
  exists s1 s2,
    Tab2.segment_summary text_sort scenario = Ok [s1; s2] /\
    Tab2.segment_label s1 = "S1" /\ Tab2.customers s1 = 2 /\
    feq (Tab2.avg_clv s1) (Fin 75) /\ feq (Tab2.churn_rate s1) (Fin (1 # 2)) /\
    Tab2.segment_label s2 = "S2" /\ Tab2.customers s2 = 2 /\
    feq (Tab2.avg_clv s2) (Fin 115) /\ feq (Tab2.churn_rate s2) (Fin (1 # 2)).
Proof. do 2 eexists. repeat split. Qed.

Example scenario_risk_counts :
  exists vc,
    Tab1.risk_counts scenario = Ok vc /\
    lookup "High Risk" vc = Some 2 /\
    lookup "Low Risk" vc = Some 2 /\
    lookup "Medium Risk" vc = None.
Proof. eexists. repeat split. Qed.

(** A (0.9) stands before C (0.8) in both tables, with the insertion argsort
    and with numpy's quicksort: the scenario has no ties. *)
Example scenario_tables :
  Tab3.table argsort_stable "High Risk" scenario =
    Ok (mkFrame ["customer_id"; "segment"; "clv_proxy"; "churn_probability"; "risk_level"]
                [row_A; row_C]) /\
  Tab3.table aquicksort "High Risk" scenario =
    Tab3.table argsort_stable "High Risk" scenario /\
  Tab4.table argsort_stable scenario =
    Ok (mkFrame ["customer_id"; "segment"; "clv_proxy"; "churn_probability"]
                [row_A; row_C]) /\
  Tab4.table aquicksort scenario = Tab4.table argsort_stable scenario /\
  Tab3.table argsort_stable "All" scenario =
    Ok (mkFrame ["customer_id"; "segment"; "clv_proxy"; "churn_probability"; "risk_level"]
                [row_A; row_C; row_B; row_D]).
Proof. repeat split. Qed.

(** On the two tied rows of [ties] the insertion argsort and numpy's
    quicksort, which sorts so short a segment by insertion, both keep E before
    F. *)
Example ties_short_table :
  exists t3 t4,
    Tab3.table argsort_stable "High Risk" ties = Ok t3 /\
    rows t3 = [row_E; row_F] /\
    Tab4.table argsort_stable ties = Ok t4 /\
    rows t4 = [row_E; row_F] /\
    Tab3.table aquicksort "High Risk" ties = Ok t3 /\
    Tab4.table aquicksort ties = Ok t4.
Proof. do 2 eexists. repeat split. Qed.

(** * Further properties of the script *)

(** ** Tab 1: the risk distribution *)

Lemma count_occ_indicator (x k : string) (l : list string) :
  count_occ string_dec (x :: l) k =
  (if String.eqb k x then 1 else 0) + count_occ string_dec l k.
Proof.
  simpl. destruct (string_dec x k) as [->|N].
  - rewrite String.eqb_refl. reflexivity.
  - assert (E : String.eqb k x = false) by (apply String.eqb_neq; congruence).
    rewrite E. reflexivity.
Qed.

Lemma indicator_sum_sym (x : string) (ks : list string) :
  NoDup ks -> In x ks ->
  list_sum (map (fun k => if String.eqb k x then 1 else 0) ks) = 1.
Proof.
  intros Hn Hin.
  transitivity (list_sum (map (fun k => if String.eqb x k then 1 else 0) ks)).
  - f_equal. apply map_ext. intros k. rewrite String.eqb_sym. reflexivity.
  - apply indicator_sum; assumption.
Qed.

Lemma counts_cover (ks l : list string) :
  NoDup ks -> incl l ks ->
  list_sum (map (count_occ string_dec l) ks) = List.length l.
Proof.
  intros Hn. induction l as [|x l IH]; intros Hi.
  - simpl. clear Hn Hi. induction ks as [|k ks IHk]; simpl; [reflexivity|exact IHk].
  - rewrite (map_ext _ _ (fun k => count_occ_indicator x k l)).
    rewrite list_sum_plus, indicator_sum_sym, IH.
    + reflexivity.
    + intros y Hy. apply Hi. right. exact Hy.
    + exact Hn.
    + apply Hi. left. reflexivity.
Qed.

Lemma value_counts_labels (s : list (option string)) :
  map fst (value_counts s) = nodup string_dec (dropnone s).
Proof.
  unfold value_counts. rewrite map_map. simpl. apply map_id.
Qed.

Lemma value_counts_total (s : list (option string)) :
  list_sum (map snd (value_counts s)) = List.length (dropnone s).
Proof.
  unfold value_counts. rewrite map_map. simpl.
  apply counts_cover; [apply NoDup_nodup|].
  intros x Hx. apply nodup_In. exact Hx.
Qed.

(** X1.  The risk distribution lists every label that occurs in the table
    once, with the number of rows that carry it, which is at least 1; the
    counts add up to the number of rows that have a label, hence to the row
    count when no label is missing. *)
Theorem X1_risk_counts_total (data : DataFrame) :
  has_column "risk_level" data = true ->
  exists vc,
    Tab1.risk_counts data = Ok vc /\
    NoDup (map fst vc) /\
    (forall L, In L (map fst vc) <->
               exists r, In r (rows data) /\ risk_level r = Some L) /\
    (forall L n, In (L, n) vc ->
       1 <= n /\ n = List.length (filter (has_label risk_level L) (rows data))) /\
    list_sum (map snd vc) = List.length (dropnone (map risk_level (rows data))) /\
    ((forall r, In r (rows data) -> risk_level r <> None) ->
     list_sum (map snd vc) = List.length (rows data)).
Proof.
  intros Hr. exists (value_counts (map risk_level (rows data))).
  split; [unfold Tab1.risk_counts; rewrite (getitem_ok _ _ _ Hr); reflexivity|].
  split; [rewrite value_counts_labels; apply NoDup_nodup|].
  split; [|split; [|split]].
  - intros L. rewrite value_counts_labels, nodup_In, In_dropnone. apply In_column.
  - intros L n Hin. unfold value_counts in Hin. apply in_map_iff in Hin.
    destruct Hin as (k & Hk & Hin). inversion Hk; subst; clear Hk.
    split; [|apply count_label_rows].
    apply nodup_In in Hin. apply (count_occ_In string_dec) in Hin. lia.
  - apply value_counts_total.
  - intros Hp. rewrite value_counts_total. apply dropnone_all_present. exact Hp.
Qed.

Lemma X1_risk_counts_total_witness :
  exists vc,
    Tab1.risk_counts scenario = Ok vc /\
    NoDup (map fst vc) /\
    list_sum (map snd vc) = List.length (rows scenario).
Proof.
  destruct (X1_risk_counts_total scenario eq_refl) as (vc & Hv & Hn & _ & _ & _ & Ht).
  exists vc. split; [exact Hv|]. split; [exact Hn|]. apply Ht.
  intros r Hr. simpl in Hr.
  repeat (destruct Hr as [<-|Hr]; [discriminate|]). destruct Hr.
Defined.

(** ** Tab 1: bounds of the percentages *)

Lemma Qlen_pos (n : nat) : n <> 0 -> (0 < Qlen n)%Q.
Proof.
  intros Hn. unfold Qlen. change 0%Q with (inject_Z 0). rewrite <- Zlt_Qlt. lia.
Qed.

Lemma Qsum_bounds (lo hi : Q) (vals : list Q) :
  Forall (fun x => lo <= x /\ x <= hi)%Q vals ->
  (lo * Qlen (List.length vals) <= Qsum vals /\
   Qsum vals <= hi * Qlen (List.length vals))%Q.
Proof.
  induction 1 as [|x vals [Hlo Hhi] _ [IHlo IHhi]].
  - simpl. unfold Qlen. simpl. split; ring_simplify; apply Qle_refl.
  - cbn [List.length Qsum fold_right]. fold (Qsum vals). rewrite Qlen_S.
    split; ring_simplify; lra.
Qed.

Lemma mean_bounds (lo hi : Q) (vals : list Q) :
  vals <> [] ->
  Forall (fun x => lo <= x /\ x <= hi)%Q vals ->
  (lo <= Qsum vals / Qlen (List.length vals) /\
   Qsum vals / Qlen (List.length vals) <= hi)%Q.
Proof.
  intros Hne Hb. destruct (Qsum_bounds lo hi vals Hb) as [Hlo Hhi].
  assert (Hp : (0 < Qlen (List.length vals))%Q).
  { apply Qlen_pos. destruct vals; [congruence|discriminate]. }
  split.
  - apply Qle_shift_div_l; assumption.
  - apply Qle_shift_div_r; assumption.
Qed.

Lemma dropna_In (s : list float) (q : Q) : In q (dropna s) <-> In (Fin q) s.
Proof.
  induction s as [|[|x] s IH]; simpl.
  - tauto.
  - rewrite IH. split; [tauto|]. intros [H|H]; [discriminate|exact H].
  - rewrite IH. split; (intros [H|H]; [left; congruence|right; exact H]).
Qed.

Lemma mean_of_bounded (lo hi : Q) (s : list float) :
  (forall q, In (Fin q) s -> lo <= q /\ q <= hi)%Q ->
  mean s = NaN /\ dropna s = [] \/
  exists m, mean s = Fin m /\ (lo <= m /\ m <= hi)%Q.
Proof.
  intros Hb. unfold mean. destruct (dropna s) as [|x v] eqn:E.
  - left. split; reflexivity.
  - right. eexists. split; [reflexivity|].
    apply mean_bounds; [discriminate|].
    apply Forall_forall. intros q Hq. apply Hb. apply dropna_In. rewrite E. exact Hq.
Qed.

Lemma as_float_values (m : list bool) (q : Q) :
  In (Fin q) (as_float m) -> (0 <= q /\ q <= 1)%Q.
Proof.
  unfold as_float. intros H. apply in_map_iff in H.
  destruct H as ([|] & E & _); inversion E; subst; split; discriminate.
Qed.

Lemma dropna_as_float_length (m : list bool) :
  List.length (dropna (as_float m)) = List.length m.
Proof.
  rewrite as_float_present, dropna_present, length_map. reflexivity.
Qed.

(** X2.  On a non-empty table [high_risk_pct] is a number between 0 and 100.
    [churn_rate] is a number between 0 and 100 as soon as one [actual_churn]
    cell is present and the present cells lie between 0 and 1. *)
Theorem X2_percentages_bounded (data : DataFrame) :
  has_schema data ->
  rows data <> [] ->
  (exists h, Tab1.high_risk_pct data = Ok (Fin h) /\ (0 <= h /\ h <= 100)%Q) /\
  ((forall r q, In r (rows data) -> actual_churn r = Fin q -> (0 <= q /\ q <= 1)%Q) ->
   (exists r q, In r (rows data) /\ actual_churn r = Fin q) ->
   exists c, Tab1.churn_rate data = Ok (Fin c) /\ (0 <= c /\ c <= 100)%Q).
Proof.
  intros Hs Hne.
  assert (H2 : has_column "actual_churn" data = true) by schema_column Hs.
  assert (H3 : has_column "risk_level" data = true) by schema_column Hs.
  split.
  - unfold Tab1.high_risk_pct. rewrite (getitem_ok _ _ _ H3). simpl.
    set (mask := eq_label "High Risk" (map risk_level (rows data))).
    destruct (mean_of_bounded 0 1 (as_float mask) (as_float_values mask))
      as [[_ He]|(m & Hm & Hlo & Hhi)].
    + exfalso. pose proof (dropna_as_float_length mask) as Hl.
      rewrite He in Hl. unfold mask, eq_label in Hl. rewrite !length_map in Hl.
      destruct (rows data); [congruence|discriminate].
    + rewrite Hm. simpl. eexists. split; [reflexivity|]. split; lra.
  - intros Hb (r & q & Hr & Hq).
    unfold Tab1.churn_rate. rewrite (getitem_ok _ _ _ H2). simpl.
    destruct (mean_of_bounded 0 1 (map actual_churn (rows data)))
      as [[_ He]|(m & Hm & Hlo & Hhi)].
    + intros x Hx. apply In_column in Hx. destruct Hx as (r' & Hr' & Hx).
      apply (Hb r' x Hr' Hx).
    + exfalso. assert (Hin : In q (dropna (map actual_churn (rows data)))).
      { apply dropna_In. rewrite <- Hq. apply in_map. exact Hr. }
      rewrite He in Hin. destruct Hin.
    + rewrite Hm. simpl. eexists. split; [reflexivity|]. split; lra.
Qed.

Lemma X2_percentages_bounded_witness :
  (exists h, Tab1.high_risk_pct scenario = Ok (Fin h) /\ (0 <= h /\ h <= 100)%Q) /\
  (exists c, Tab1.churn_rate scenario = Ok (Fin c) /\ (0 <= c /\ c <= 100)%Q).
Proof.
  destruct (X2_percentages_bounded scenario eq_refl) as (Hh & Hc);
    [discriminate|].
  split; [exact Hh|].
  apply Hc.
  - intros r q Hr E. simpl in Hr.
    destruct Hr as [<-|[<-|[<-|[<-|[]]]]]; inversion E; subst; split; discriminate.
  - exists row_A, 1%Q. split; [left; reflexivity|reflexivity].
Defined.

(** ** Tab 1: when the customer count is the row count *)

Lemma dropnone_Some (s : list (option string)) :
  ~ In None s -> map Some (dropnone s) = s.
Proof.
  induction s as [|[v|] s IH]; intros H; simpl.
  - reflexivity.
  - rewrite IH; [reflexivity|]. intros Hin. apply H. right. exact Hin.
  - exfalso. apply H. left. reflexivity.
Qed.

Lemma dropnone_lt (s : list (option string)) :
  In None s -> List.length (dropnone s) < List.length s.
Proof.
  induction s as [|[v|] s IH]; intros H; simpl.
  - destruct H.
  - destruct H as [H|H]; [discriminate|]. specialize (IH H). lia.
  - pose proof (dropnone_length_le s). lia.
Qed.

(** X3.  [total_customers] equals the number of rows exactly when every row
    has a customer identifier and no identifier occurs on two rows. *)
Theorem X3_total_customers_row_count (data : DataFrame) :
  has_column "customer_id" data = true ->
  exists n,
    Tab1.total_customers data = Ok n /\
    (n = List.length (rows data) <->
     (forall r, In r (rows data) -> customer_id r <> None) /\
     NoDup (map customer_id (rows data))).
Proof.
  intros H1. exists (nunique (map customer_id (rows data))).
  split; [unfold Tab1.total_customers; rewrite (getitem_ok _ _ _ H1); reflexivity|].
  set (s := map customer_id (rows data)).
  rewrite <- (length_map customer_id (rows data)). fold s.
  split.
  - intros Hn. split.
    + intros r Hr E.
      assert (Hin : In None s) by (unfold s; rewrite <- E; apply in_map; exact Hr).
      pose proof (dropnone_lt s Hin).
      pose proof (nodup_length_le string_dec (dropnone s)).
      unfold nunique in Hn. lia.
    + destruct (NoDup_dec option_string_dec s) as [Hd|Hd]; [exact Hd|].
      pose proof (nunique_lt s Hd). lia.
  - intros [Hp Hd].
    assert (Hnone : ~ In None s).
    { unfold s. intros Hin. apply In_column in Hin.
      destruct Hin as (r & Hr & E). exact (Hp r Hr E). }
    pose proof (dropnone_Some s Hnone) as Hs.
    unfold nunique. rewrite nodup_fixed_point.
    + rewrite <- Hs at 2. rewrite length_map. reflexivity.
    + apply (NoDup_map_inv Some). rewrite Hs. exact Hd.
Qed.

(** ** Tab 4: size of the priority subset, and its relation to tab 3 *)













Lemma X3_total_customers_row_count_witness :
  exists n,
    Tab1.total_customers repeated = Ok n /\
    (n = List.length (rows repeated) <->
     (forall r, In r (rows repeated) -> customer_id r <> None) /\
     NoDup (map customer_id (rows repeated))).
Proof. apply (X3_total_customers_row_count repeated); reflexivity. Defined.

(** ** Tab 3: the three label selections split the table *)

Lemma label_split (rs : list Row) :
  (forall r, In r rs ->
     risk_level r = Some "High Risk" \/ risk_level r = Some "Medium Risk" \/
     risk_level r = Some "Low Risk") ->
  Permutation (filter (has_label risk_level "High Risk") rs ++
               filter (has_label risk_level "Medium Risk") rs ++
               filter (has_label risk_level "Low Risk") rs) rs.
Proof.
  induction rs as [|r rs IH]; intros H; [apply perm_nil|].
  assert (IH' := IH (fun r' Hr' => H r' (or_intror Hr'))). clear IH.
  cbn [filter].
  assert (Hl : forall L, has_label risk_level L r =
                 match risk_level r with Some v => String.eqb v L | None => false end)
    by reflexivity.
  destruct (H r (or_introl eq_refl)) as [E|[E|E]];
    rewrite !Hl, E; cbn [String.eqb Ascii.eqb Bool.eqb]; cbn iota.
  - apply perm_skip. exact IH'.
  - apply Permutation_sym, Permutation_cons_app, Permutation_sym. exact IH'.
  - rewrite app_assoc. apply Permutation_sym, Permutation_cons_app, Permutation_sym.
    rewrite <- app_assoc. exact IH'.
Qed.

(** X6.  On a table whose rows all carry one of the three risk labels, the
    three label selections of the risk filter split the table: together they
    hold every row once, and their sizes add up to the row count. *)
Theorem X6_label_selections_split (data : DataFrame) :
  has_column "risk_level" data = true ->
  (forall r, In r (rows data) ->
     risk_level r = Some "High Risk" \/ risk_level r = Some "Medium Risk" \/
     risk_level r = Some "Low Risk") ->
  exists h m l,
    Tab3.filtered_data "High Risk" data = Ok h /\
    Tab3.filtered_data "Medium Risk" data = Ok m /\
    Tab3.filtered_data "Low Risk" data = Ok l /\
    Permutation (rows h ++ rows m ++ rows l) (rows data) /\
    List.length (rows h) + List.length (rows m) + List.length (rows l) =
    List.length (rows data).
Proof.
  intros Hr Hl. do 3 eexists.
  split; [apply filtered_data_label; [discriminate|exact Hr]|].
  split; [apply filtered_data_label; [discriminate|exact Hr]|].
  split; [apply filtered_data_label; [discriminate|exact Hr]|].
  simpl. pose proof (label_split (rows data) Hl) as Hp.
  split; [exact Hp|].
  apply Permutation_length in Hp. rewrite !length_app in Hp. lia.
Qed.

Lemma X6_label_selections_split_witness :
  exists h m l,
    Tab3.filtered_data "High Risk" scenario = Ok h /\
    Tab3.filtered_data "Medium Risk" scenario = Ok m /\
    Tab3.filtered_data "Low Risk" scenario = Ok l /\
    Permutation (rows h ++ rows m ++ rows l) (rows scenario) /\
    List.length (rows h) + List.length (rows m) + List.length (rows l) =
    List.length (rows scenario).
Proof.
  apply (X6_label_selections_split scenario); [reflexivity|].
  intros r Hr. simpl in Hr.
  destruct Hr as [<-|[<-|[<-|[<-|[]]]]]; simpl; tauto.
Defined.

(** ** Which columns each view needs *)

Lemma lacks_same_columns (cs : list string) (f df : DataFrame) :
  columns f = columns df -> lacks cs df -> lacks cs f.
Proof.
  intros Hc (c & Hin & Hf). exists c. split; [exact Hin|].
  rewrite (same_columns f df c Hc). exact Hf.
Qed.

Lemma display_key_error (argsort : list Q -> list nat) (cs : list string)
    (f : DataFrame) :
  lacks cs f ->
  key_error cs f (v <- getitems cs f ;;
                  sort_values argsort "churn_probability" churn_probability false v).
Proof.
  intros (c & Hc & Hf).
  destruct (check_columns_missing cs f c Hc Hf) as (c' & Hc' & Hf' & Hr).
  exists c'. split; [exact Hc'|]. split; [exact Hf'|].
  unfold getitems. rewrite Hr. reflexivity.
Qed.

Lemma filtered_data_outcome (sel : string) (df : DataFrame) :
  (exists f, Tab3.filtered_data sel df = Ok f /\ columns f = columns df) \/
  (Tab3.filtered_data sel df = Raise (KeyError "risk_level") /\
   has_column "risk_level" df = false).
Proof.
  unfold Tab3.filtered_data, getitem.
  destruct (negb (String.eqb sel "All")).
  - destruct (has_column "risk_level" df); simpl.
    + left. eexists. split; reflexivity.
    + right. split; reflexivity.
  - left. exists df. split; reflexivity.
Qed.

Lemma priority_customers_outcome (mid : Q -> Q -> xfloat) (df : DataFrame) :
  (exists p, Rounded.priority_customers mid df = Ok p /\ columns p = columns df /\
             has_column "risk_level" df = true /\ has_column "clv_proxy" df = true) \/
  (exists c, In c ["risk_level"; "clv_proxy"] /\ has_column c df = false /\
             Rounded.priority_customers mid df = Raise (KeyError c)).
Proof.
  unfold Rounded.priority_customers, getitem.
  destruct (has_column "risk_level" df) eqn:E1; cbn [bind].
  - destruct (has_column "clv_proxy" df) eqn:E2; cbn [bind].
    + left. eexists. repeat split.
    + right. exists "clv_proxy". split; [simpl; tauto|]. split; [exact E2|reflexivity].
  - right. exists "risk_level". split; [simpl; tauto|]. split; [exact E1|reflexivity].
Qed.

Ltac absent c E :=
  exists c; split; [simpl; tauto|split; [exact E|reflexivity]].

(** X7.  Each view stops with the KeyError of an absent column as soon as
    one of the columns it reads is absent from the frame.  The headline
    metrics read four columns, the risk distribution one, the segment summary
    four, the risk table and the priority table five. *)
Theorem X7_columns_each_view_needs
    (argsort : list Q -> list nat) (mid : Q -> Q -> xfloat)
    (key_sort : list string -> list string) (sel : string) (df : DataFrame) :
  (lacks ["customer_id"; "actual_churn"; "risk_level"; "clv_proxy"] df ->
   key_error ["customer_id"; "actual_churn"; "risk_level"; "clv_proxy"] df
             (Tab1.metrics df)) /\
  (lacks ["risk_level"] df ->
   key_error ["risk_level"] df (Tab1.risk_counts df)) /\
  (lacks ["segment"; "customer_id"; "clv_proxy"; "actual_churn"] df ->
   key_error ["segment"; "customer_id"; "clv_proxy"; "actual_churn"] df
             (Tab2.segment_summary key_sort df)) /\
  (lacks ["customer_id"; "segment"; "clv_proxy"; "churn_probability"; "risk_level"] df ->
   key_error ["customer_id"; "segment"; "clv_proxy"; "churn_probability"; "risk_level"] df
             (Tab3.table argsort sel df)) /\
  (lacks ["risk_level"; "clv_proxy"; "customer_id"; "segment"; "churn_probability"] df ->
   key_error ["risk_level"; "clv_proxy"; "customer_id"; "segment"; "churn_probability"] df
             (Rounded.table mid argsort df)).
Proof.
  split; [|split; [|split; [|split]]].
  - intros (c & Hc & Hf).
    unfold key_error, Tab1.metrics, Tab1.total_customers, Tab1.churn_rate,
      Tab1.high_risk_pct, Tab1.avg_clv, getitem.
    destruct (has_column "customer_id" df) eqn:E1; cbn [bind];
      [|absent "customer_id" E1].
    destruct (has_column "actual_churn" df) eqn:E2; cbn [bind];
      [|absent "actual_churn" E2].
    destruct (has_column "risk_level" df) eqn:E3; cbn [bind];
      [|absent "risk_level" E3].
    destruct (has_column "clv_proxy" df) eqn:E4; cbn [bind];
      [|absent "clv_proxy" E4].
    exfalso. simpl in Hc.
    repeat (destruct Hc as [<-|Hc]; [congruence|]). destruct Hc.
  - intros (c & Hc & Hf). destruct Hc as [<-|[]].
    unfold key_error, Tab1.risk_counts, getitem. rewrite Hf.
    absent "risk_level" Hf.
  - intros (c & Hc & Hf).
    destruct (check_columns_missing _ df c Hc Hf) as (c' & Hc' & Hf' & Hr).
    exists c'. split; [exact Hc'|]. split; [exact Hf'|].
    unfold Tab2.segment_summary. rewrite Hr. reflexivity.
  - intros Hl. unfold Tab3.table.
    destruct (filtered_data_outcome sel df) as [(f & Ef & Hcf)|[Ef Hr]].
    + rewrite Ef. cbn [bind].
      destruct (display_key_error argsort _ f (lacks_same_columns _ f df Hcf Hl))
        as (c & Hc & Hf & Hr).
      exists c. split; [exact Hc|]. split; [|exact Hr].
      rewrite <- (same_columns f df c Hcf). exact Hf.
    + rewrite Ef. absent "risk_level" Hr.
  - intros (c & Hc & Hf). unfold Rounded.table.
    destruct (priority_customers_outcome mid df)
      as [(p & Ep & Hcp & H1 & H2)|(c' & Hc' & Hf' & Ep)].
    + rewrite Ep. cbn [bind].
      assert (Hl : lacks ["customer_id"; "segment"; "clv_proxy"; "churn_probability"] p).
      { exists c. split; [|rewrite (same_columns p df c Hcp); exact Hf].
        simpl in Hc. destruct Hc as [<-|[<-|Hc]]; [congruence|congruence|].
        simpl. tauto. }
      destruct (display_key_error argsort _ p Hl) as (c' & Hc' & Hf' & Hr).
      exists c'. split; [simpl in *; tauto|]. split; [|exact Hr].
      rewrite <- (same_columns p df c' Hcp). exact Hf'.
    + rewrite Ep. exists c'. split; [simpl in *; tauto|]. split; [exact Hf'|reflexivity].
Qed.

Lemma X7_columns_each_view_needs_witness :
  let df := mkFrame ["customer_id"; "actual_churn"; "risk_level"; "clv_proxy"]
                    [row_A; row_B] in
  key_error ["segment"; "customer_id"; "clv_proxy"; "actual_churn"] df
            (Tab2.segment_summary text_sort df) /\
  key_error ["customer_id"; "segment"; "clv_proxy"; "churn_probability"; "risk_level"] df
            (Tab3.table aquicksort "All" df) /\
  key_error ["risk_level"; "clv_proxy"; "customer_id"; "segment"; "churn_probability"] df
            (Rounded.table exact_mid aquicksort df).
Proof.
  intros df.
  destruct (X7_columns_each_view_needs aquicksort exact_mid text_sort "All" df)
    as (_ & _ & H2 & H3 & H4).
  split; [|split].
  - apply H2. exists "segment". split; [simpl; tauto|reflexivity].
  - apply H3. exists "segment". split; [simpl; tauto|reflexivity].
  - apply H4. exists "segment". split; [simpl; tauto|reflexivity].
Defined.

Lemma tables_produced
    (argsort : list Q -> list nat) (mid : Q -> Q -> xfloat)
    (sel : string) (data : DataFrame) :
  argsort_contract argsort ->
  has_schema data ->
  exists f p t3 t4,
    Tab3.filtered_data sel data = Ok f /\
    Rounded.priority_customers mid data = Ok p /\
    Tab3.table argsort sel data = Ok t3 /\
    Rounded.table mid argsort data = Ok t4 /\
    Permutation (rows t3) (rows f) /\
    Permutation (rows t4) (rows p) /\
    incl (rows f) (rows data) /\
    incl (rows p) (rows data).
Proof.
  intros Ha Hs.
  assert (Hr : has_column "risk_level" data = true) by schema_column Hs.
  assert (Hc : has_column "clv_proxy" data = true) by schema_column Hs.
  destruct (filtered_data_ok sel data Hr) as (f & Hf & Hcf & If).
  pose proof (rounded_priority_customers_rows mid data Hr Hc) as Hp.
  set (p := {| columns := columns data;
               rows := filter (fun r => has_label risk_level "High Risk" r &&
                                        xgt (clv_proxy r)
                                            (Rounded.median mid (map clv_proxy (rows data))))
                              (rows data) |}) in Hp.
  destruct (display_sorted argsort
              ["customer_id"; "segment"; "clv_proxy"; "churn_probability"; "risk_level"]
              f Ha) as (t3 & Ht3 & _ & Hp3 & _).
  { intros c Hc'. rewrite (same_columns f data c Hcf).
    apply (has_schema_column data c Hs). simpl in *. tauto. }
  { simpl. tauto. }
  destruct (display_sorted argsort
              ["customer_id"; "segment"; "clv_proxy"; "churn_probability"]
              p Ha) as (t4 & Ht4 & _ & Hp4 & _).
  { intros c Hc'. rewrite (same_columns p data c eq_refl).
    apply (has_schema_column data c Hs). simpl in *. tauto. }
  { simpl. tauto. }
  exists f, p, t3, t4.
  split; [exact Hf|]. split; [exact Hp|].
  split; [unfold Tab3.table; rewrite Hf; exact Ht3|].
  split; [unfold Rounded.table; rewrite Hp; exact Ht4|].
  split; [exact Hp3|]. split; [exact Hp4|]. split; [exact If|].
  intros r Hin. apply filter_In in Hin. tauto.
Qed.

(** ** The expressions of the views on a table without rows *)

(** X8.  Evaluated on a frame with the schema's columns and no row, each of
    the expressions behind the views raises nothing and yields an empty
    result: the risk distribution and the segment summary have no entry, the
    risk filter and the priority subset return no row, and the two sorted
    projections have no row.  The chart calls that the script makes between
    these expressions are not part of the statement. *)
Theorem X8_views_of_empty_table
    (argsort : list Q -> list nat) (mid : Q -> Q -> xfloat)
    (key_sort : list string -> list string) (sel : string) (data : DataFrame) :
  argsort_contract argsort ->
  (forall l, Permutation (key_sort l) l) ->
  has_schema data ->
  rows data = [] ->
  Tab1.risk_counts data = Ok [] /\
  Tab2.segment_summary key_sort data = Ok [] /\
  (exists f, Tab3.filtered_data sel data = Ok f /\ rows f = []) /\
  (exists p, Rounded.priority_customers mid data = Ok p /\ rows p = []) /\
  (exists t, Tab3.table argsort sel data = Ok t /\ rows t = []) /\
  (exists t, Rounded.table mid argsort data = Ok t /\ rows t = []).
Proof.
  intros Ha Hk Hs He.
  assert (H3 : has_column "risk_level" data = true) by schema_column Hs.
  destruct (tables_produced argsort mid sel data Ha Hs)
    as (f & p & t3 & t4 & Hf & Hp & Ht3 & Ht4 & P3 & P4 & If & Ip).
  assert (Ef : rows f = []).
  { destruct (rows f) as [|r rs] eqn:E; [reflexivity|].
    exfalso. assert (Hin : In r (rows data)) by (apply If; left; reflexivity).
    rewrite He in Hin. destruct Hin. }
  assert (Ep : rows p = []).
  { destruct (rows p) as [|r rs] eqn:E; [reflexivity|].
    exfalso. assert (Hin : In r (rows data)) by (apply Ip; left; reflexivity).
    rewrite He in Hin. destruct Hin. }
  split; [|split; [|split; [|split; [|split]]]].
  - unfold Tab1.risk_counts. rewrite (getitem_ok _ _ _ H3), He. reflexivity.
  - unfold Tab2.segment_summary. rewrite check_columns_ok.
    + rewrite He. unfold Tab2.group_keys. simpl.
      rewrite (Permutation_nil (Permutation_sym (Hk []))). reflexivity.
    + apply (has_schema_columns data _ Hs). intros c Hc. simpl in *. tauto.
  - exists f. split; assumption.
  - exists p. split; assumption.
  - exists t3. split; [exact Ht3|]. rewrite Ef in P3.
    apply Permutation_sym, Permutation_nil in P3. exact P3.
  - exists t4. split; [exact Ht4|]. rewrite Ep in P4.
    apply Permutation_sym, Permutation_nil in P4. exact P4.
Qed.

Lemma X8_views_of_empty_table_witness :
  Tab1.risk_counts (mkFrame schema []) = Ok [] /\
  Tab2.segment_summary text_sort (mkFrame schema []) = Ok [] /\
  (exists f, Tab3.filtered_data "Low Risk" (mkFrame schema []) = Ok f /\ rows f = []) /\
  (exists p, Rounded.priority_customers exact_mid (mkFrame schema []) = Ok p /\
             rows p = []) /\
  (exists t, Tab3.table argsort_stable "Low Risk" (mkFrame schema []) = Ok t /\
             rows t = []) /\
  (exists t, Rounded.table exact_mid argsort_stable (mkFrame schema []) = Ok t /\
             rows t = []).
Proof.
  apply (X8_views_of_empty_table argsort_stable exact_mid text_sort "Low Risk"
           (mkFrame schema [])).
  - exact argsort_stable_contract.
  - exact text_sort_perm.
  - reflexivity.
  - reflexivity.
Defined.

(** ** The two-decimal display *)

Lemma round_half_even_nearest (x : Q) :
  (Qabs (inject_Z (round_half_even x) - x) <= 1 # 2)%Q.
Proof.
  unfold round_half_even.
  pose proof (Qfloor_le x) as Hlo. pose proof (Qlt_floor x) as Hhi.
  rewrite inject_Z_plus in Hhi. change (inject_Z 1) with 1%Q in Hhi.
  apply Qabs_Qle_condition.
  destruct (Qcompare_spec (x - inject_Z (Qfloor x)) (1 # 2)) as [E|L|G].
  - destruct (Z.even (Qfloor x)).
    + split; lra.
    + rewrite inject_Z_plus. change (inject_Z 1) with 1%Q. split; lra.
  - split; lra.
  - rewrite inject_Z_plus. change (inject_Z 1) with 1%Q. split; lra.
Qed.

Lemma round_half_even_nonneg (x : Q) : (0 <= x)%Q -> (0 <= round_half_even x)%Z.
Proof.
  intros Hx. unfold round_half_even.
  assert (Hf : (0 <= Qfloor x)%Z).
  { change 0%Z with (Qfloor 0). apply Qfloor_resp_le. exact Hx. }
  destruct (Qcompare (x - inject_Z (Qfloor x)) (1 # 2)); [|lia|lia].
  destruct (Z.even (Qfloor x)); lia.
Qed.

Lemma round_half_even_exact (x : Q) (z : Z) :
  (x == inject_Z z)%Q -> round_half_even x = z.
Proof.
  intros E. unfold round_half_even.
  assert (Hf : Qfloor x = z) by (rewrite (Qfloor_comp _ _ E); apply Qfloor_Z).
  rewrite Hf.
  assert (L : (x - inject_Z z < 1 # 2)%Q) by (rewrite E; ring_simplify; reflexivity).
  destruct (Qcompare_spec (x - inject_Z z) (1 # 2)) as [E'|_|G].
  - exfalso. rewrite E' in L. exact (Qlt_irrefl _ L).
  - reflexivity.
  - exfalso. exact (Qlt_irrefl _ (Qlt_trans _ _ _ L G)).
Qed.

Lemma digits_one (d : Z) :
  (0 <= d < 10)%Z -> String.length (digits d) = 1.
Proof.
  intros H.
  assert (C : (d = 0 \/ d = 1 \/ d = 2 \/ d = 3 \/ d = 4 \/ d = 5 \/ d = 6 \/
               d = 7 \/ d = 8 \/ d = 9)%Z) by lia.
  repeat (destruct C as [->|C]; [reflexivity|]). subst d. reflexivity.
Qed.

(** X11.  What a metric tile shows for a number [q]: a minus sign when [q] is
    negative, then the digits of an integer part, a point and exactly two
    digits.  The shown amount, in hundredths, is a nearest integer to 100
    times the magnitude of [q] (at most half a hundredth away), and it is that
    value itself when [q] has no more than two decimals. *)
Theorem X11_format_two_decimals (q : Q) :
  exists n : Z,
    (0 <= n)%Z /\
    (Qabs (inject_Z n - Qabs q * 100) <= 1 # 2)%Q /\
    (forall z, (Qabs q * 100 == inject_Z z)%Q -> n = z) /\
    format_2f (Fin q) =
      String.append (if Qle_bool 0 q then "" else "-")
        (String.append (digits (n / 100))
           (String.append "."
              (String.append (digits (n mod 100 / 10)) (digits (n mod 10))))) /\
    String.length (digits (n mod 100 / 10)) = 1 /\
    String.length (digits (n mod 10)) = 1.
Proof.
  exists (round_half_even (Qabs q * 100)).
  assert (Hx : (0 <= Qabs q * 100)%Q).
  { pose proof (Qabs_nonneg q). lra. }
  split; [apply round_half_even_nonneg; exact Hx|].
  split; [apply round_half_even_nearest|].
  split; [intros z Hz; apply round_half_even_exact; exact Hz|].
  split; [reflexivity|].
  set (n := round_half_even (Qabs q * 100)).
  split; apply digits_one.
  - pose proof (Z.mod_pos_bound n 100 eq_refl) as Hb.
    split.
    + apply Z.div_pos; lia.
    + apply Z.div_lt_upper_bound; lia.
  - apply Z.mod_pos_bound. reflexivity.
Qed.

Lemma X11_format_two_decimals_witness :
  exists n : Z,
    (0 <= n)%Z /\
    (Qabs (inject_Z n - Qabs (1 # 8) * 100) <= 1 # 2)%Q /\
    format_2f (Fin (1 # 8)) =
      String.append ""
        (String.append (digits (n / 100))
           (String.append "."
              (String.append (digits (n mod 100 / 10)) (digits (n mod 10))))).
Proof.
  destruct (X11_format_two_decimals (1 # 8)) as (n & H0 & H1 & _ & H2 & _).
  exists n. split; [exact H0|]. split; [exact H1|exact H2].
Defined.
